(** * HireLoop recruitment application: a shallow embedding of [recruitment_app/app.py]

    The Flask application keeps two SQLite tables, [roles] and [candidates],
    fabricates candidate profiles with Python's [random] module, and serves
    three routes ([/], [/role/new], [/role/<int:role_id>]).

    The embedding follows the source function by function:
    - rows of the two tables are records, a table is the list of its rows in
      insertion order together with its AUTOINCREMENT counter;
    - Python code that reads or writes the random generator, the SQLite
      connection or the session is written in a state-and-exception monad;
    - the random generator is a tape of raw draws, so that a theorem
      quantified over tapes covers every outcome of [random];
    - a storage call may raise: the number of storage calls that succeed
      before the first failure is part of the state ([None] = no failure). *)

From Stdlib Require Import ZArith List String Ascii Bool Lia Arith.
From Stdlib Require Import Sorting.Sorted Sorting.Permutation DecimalString.
From Stdlib Require DecimalPos DecimalZ.
Import ListNotations.

Local Open Scope string_scope.
Local Open Scope list_scope.
Local Open Scope Z_scope.

(* ===================================================================== *)
(** ** A monad for state and Python exceptions *)
(* ===================================================================== *)

(** The exceptions the modelled library calls can raise. *)
Inductive exn : Type :=
| IndexError        (* random.choice on an empty sequence *)
| ValueError        (* random.randint on an empty range *)
| OperationalError  (* sqlite3: the storage call failed *)
| ProgrammingError  (* sqlite3: operation on a closed connection *)
| OverflowError.    (* sqlite3: a Python int too large for an SQLite INTEGER *)

Inductive result (A : Type) : Type :=
| Ok (a : A)
| Raised (e : exn).
Arguments Ok {A} a.
Arguments Raised {A} e.

(** A computation over a state [S]; the state survives an exception, as the
    database file and the generator survive a failed request. *)
Definition M (S A : Type) : Type := S -> result A * S.

Definition ret {S A} (a : A) : M S A := fun s => (Ok a, s).

Definition bind {S A B} (m : M S A) (k : A -> M S B) : M S B :=
  fun s => match m s with
           | (Ok a, s') => k a s'
           | (Raised e, s') => (Raised e, s')
           end.

Definition raise {S A} (e : exn) : M S A := fun s => (Raised e, s).

Definition gets {S A} (f : S -> A) : M S A := fun s => (Ok (f s), s).

Definition modify {S} (f : S -> S) : M S unit := fun s => (Ok tt, f s).

Declare Scope py_scope.
Delimit Scope py_scope with py.
Notation "x <- m ;; k" := (bind m (fun x => k))
  (at level 61, m at next level, right associativity) : py_scope.
Notation "m ;; k" := (bind m (fun _ => k))
  (at level 61, right associativity) : py_scope.
Local Open Scope py_scope.

(** [for x in xs: body x] *)
Fixpoint for_each {S A} (xs : list A) (body : A -> M S unit) : M S unit :=
  match xs with
  | [] => ret tt
  | x :: xs' => body x ;; for_each xs' body
  end.

(* ===================================================================== *)
(** ** Python's [random] module *)
(* ===================================================================== *)

(** The generator state: the raw draws still to be consumed. *)
Definition rng : Type := list nat.

(** [Random._randbelow(n)]: a number below [n] (for [n > 0]). *)
Definition randbelow (n : nat) : M rng nat :=
  fun g => match g with
           | [] => (Ok 0%nat, [])
           | x :: g' => (Ok (x mod n)%nat, g')
           end.

(** [random.choice(seq)]: [seq[_randbelow(len(seq))]], IndexError when
    [seq] is empty. *)
Definition random_choice {A} (seq : list A) : M rng A :=
  match seq with
  | [] => raise IndexError
  | _ :: _ =>
      i <- randbelow (List.length seq) ;;
      match nth_error seq i with
      | Some x => ret x
      | None => raise IndexError
      end
  end.

(** [random.randint(a, b)]: [a + _randbelow(b - a + 1)], ValueError when
    the range is empty. *)
Definition randint (a b : Z) : M rng Z :=
  if b <? a then raise ValueError
  else i <- randbelow (Z.to_nat (b - a + 1)) ;; ret (a + Z.of_nat i).

(* ===================================================================== *)
(** ** Strings *)
(* ===================================================================== *)

(** [str.lower()] on ASCII text; the source applies it to the entries of the
    two name pools only, which are ASCII. *)
Definition ascii_lower (c : ascii) : ascii :=
  let n := nat_of_ascii c in
  if ((65 <=? n) && (n <=? 90))%nat then ascii_of_nat (n + 32) else c.

Fixpoint lower (s : string) : string :=
  match s with
  | EmptyString => EmptyString
  | String c s' => String (ascii_lower c) (lower s')
  end.

(** [needle in haystack] for Python strings. *)
Fixpoint contains (needle haystack : string) : bool :=
  String.prefix needle haystack ||
  match haystack with
  | EmptyString => false
  | String _ rest => contains needle rest
  end.

(** [str(n)] for an integer, as the URL converter prints it. *)
Definition str_of_Z (n : Z) : string := NilZero.string_of_int (Z.to_int n).

(** Truthiness of [request.form.get(key)]: [None] and [''] are falsy. *)
Definition truthy (v : option string) : bool :=
  match v with
  | None => false
  | Some EmptyString => false
  | Some (String _ _) => true
  end.

(* ===================================================================== *)
(** ** The candidate generator *)
(* ===================================================================== *)

(** The dictionary built for one candidate by [generate_dummy_candidates]. *)
Module Profile.
Record t : Type := make {
  name : string;
  current_title : string;
  company : string;
  location : string;
  linkedin : string;
  match_reason : string;
  fit_score : Z;
  culture_score : Z;
  experience_score : Z
}.
End Profile.

Definition first_names : list string :=
  ["Aarav"; "Liam"; "Emma"; "Noah"; "Olivia"; "Aria"; "Ethan"; "Mia";
   "Sophia"; "Lucas"; "Aaliyah"; "Zara"; "Jayden"; "Alina"; "David"].

Definition last_names : list string :=
  ["Patel"; "Johnson"; "Singh"; "Garcia"; "Kumar"; "Williams"; "Chen";
   "Khan"; "Brown"; "Rodriguez"; "Ali"; "Davis"; "Nguyen"; "Lee"; "Shah"].

Definition companies : list string :=
  ["TechNova"; "DataSphere"; "InnovateX"; "CodeWorks"; "NextGen"].

Definition locations : list string :=
  ["San Francisco, CA"; "Austin, TX"; "Bangalore, India"; "Dubai, UAE"; "Remote"].

Definition match_reasons : list string :=
  ["Relevant experience in similar role";
   "Strong technical skills matching JD";
   "Excellent cultural alignment";
   "Recent experience at high-growth startup";
   "Highly recommended by references"].

(** The five f-strings of the [current_title] choice. *)
Definition title_variants (role_title : string) : list string :=
  ["Senior " ++ role_title;
   role_title ++ " II";
   "Lead " ++ role_title;
   role_title ++ " Specialist";
   role_title ++ " Consultant"]%string.

Definition linkedin_url (first last : string) : string :=
  ("https://linkedin.com/in/" ++ lower first ++ lower last)%string.

(** One iteration of the loop body, in the evaluation order of the source:
    the two names, then the dictionary entries from top to bottom. *)
Definition generate_one (role_title : string) : M rng Profile.t :=
  first <- random_choice first_names ;;
  last <- random_choice last_names ;;
  let name := (first ++ " " ++ last)%string in
  current_title <- random_choice (title_variants role_title) ;;
  company <- random_choice companies ;;
  location <- random_choice locations ;;
  let linkedin := linkedin_url first last in
  match_reason <- random_choice match_reasons ;;
  fit_score <- randint 60 100 ;;
  culture_score <- randint 60 100 ;;
  experience_score <- randint 60 100 ;;
  ret (Profile.make name current_title company location linkedin
         match_reason fit_score culture_score experience_score).

(** [for _ in range(n): ... candidates.append(candidate)] *)
Fixpoint generate_loop (role_title : string) (n : nat)
    (candidates : list Profile.t) : M rng (list Profile.t) :=
  match n with
  | O => ret candidates
  | S n' =>
      candidate <- generate_one role_title ;;
      generate_loop role_title n' (candidates ++ [candidate])
  end.

(** [generate_dummy_candidates(role_title, num_candidates=10)]; an omitted
    [num_candidates] is [None], and [range] of a negative number is empty. *)
Definition generate_dummy_candidates (role_title : string)
    (num_candidates : option Z) : M rng (list Profile.t) :=
  let n := match num_candidates with Some n => n | None => 10 end in
  generate_loop role_title (Z.to_nat n) [].

(* ===================================================================== *)
(** ** The storage layer: the two tables of [init_db] *)
(* ===================================================================== *)

(** A row of [roles]. *)
Module Role.
Record t : Type := make {
  id : Z;
  title : string;
  description : string;
  date_created : string
}.
End Role.

(** A row of [candidates]. *)
Module Candidate.
Record t : Type := make {
  id : Z;
  role_id : Z;
  name : string;
  current_title : string;
  company : string;
  location : string;
  linkedin : string;
  match_reason : string;
  fit_score : Z;
  culture_score : Z;
  experience_score : Z
}.
End Candidate.

(** The database file: each table is the list of its rows in insertion
    order, with the counter SQLite keeps in [sqlite_sequence] for an
    AUTOINCREMENT key. *)
Record database : Type := mk_database {
  roles : list Role.t;
  roles_seq : Z;
  candidates : list Candidate.t;
  candidates_seq : Z
}.

(** The file after [init_db] has run on a new file: both tables, no rows. *)
Definition empty_database : database := mk_database [] 0 [] 0.

(** The rowid of an AUTOINCREMENT insert: one more than the largest rowid the
    table holds or has ever held. *)
Definition next_rowid (ids : list Z) (seq : Z) : Z :=
  Z.max (fold_right Z.max 0 ids) seq + 1.

(** [INSERT INTO roles (title, description, date_created) VALUES (?, ?, ?)];
    the first component is the cursor's [lastrowid]. *)
Definition insert_role (title description date_created : string)
    (d : database) : Z * database :=
  let rowid := next_rowid (map Role.id (roles d)) (roles_seq d) in
  (rowid,
   mk_database (roles d ++ [Role.make rowid title description date_created])
     rowid (candidates d) (candidates_seq d)).

(** [INSERT INTO candidates (role_id, name, ..., experience_score)
     VALUES (?, ..., ?)] with the entries of one generated dictionary. *)
Definition insert_candidate (role_id : Z) (candidate : Profile.t)
    (d : database) : Z * database :=
  let rowid := next_rowid (map Candidate.id (candidates d)) (candidates_seq d) in
  (rowid,
   mk_database (roles d) (roles_seq d)
     (candidates d ++
      [Candidate.make rowid role_id
         (Profile.name candidate) (Profile.current_title candidate)
         (Profile.company candidate) (Profile.location candidate)
         (Profile.linkedin candidate) (Profile.match_reason candidate)
         (Profile.fit_score candidate) (Profile.culture_score candidate)
         (Profile.experience_score candidate)])
     rowid).

(** *** ORDER BY *)

Section OrderBy.
Context {A : Type}.
(** [before x y]: row [x] may stand before row [y] in the output. *)
Variable before : A -> A -> bool.

Fixpoint place (x : A) (sorted : list A) : list A :=
  match sorted with
  | [] => [x]
  | y :: rest => if before x y then x :: sorted else y :: place x rest
  end.

Definition order_by (rows : list A) : list A := fold_right place [] rows.
End OrderBy.

(** *** The three SELECT statements *)

(** [SELECT * FROM roles WHERE id = ?] followed by [fetchone()]. *)
Definition select_role (role_id : Z) (d : database) : option Role.t :=
  find (fun r => Role.id r =? role_id) (roles d).

(** [SELECT * FROM candidates WHERE role_id = ? ORDER BY fit_score DESC]
    followed by [fetchall()]. *)
Definition select_candidates (role_id : Z) (d : database) : list Candidate.t :=
  order_by (fun x y => Candidate.fit_score y <=? Candidate.fit_score x)
    (filter (fun c => Candidate.role_id c =? role_id) (candidates d)).

(** A row of the listing query. *)
Module IndexRow.
Record t : Type := make {
  id : Z;
  title : string;
  date_created : string;
  candidate_count : Z
}.
End IndexRow.

(** [l LEFT JOIN r ON on]: every match of a left row, or the left row with
    NULLs when it has none. *)
Definition left_join {A B} (on : A -> B -> bool) (l : list A) (r : list B)
    : list (A * option B) :=
  flat_map (fun a => match filter (on a) r with
                     | [] => [(a, None)]
                     | m => map (fun b => (a, Some b)) m
                     end) l.

(** [GROUP BY key]: one group per distinct key, holding the rows with it. *)
Definition group_by {A} (key : A -> Z) (rows : list A) : list (list A) :=
  map (fun k => filter (fun row => key row =? k) rows)
      (nodup Z.eq_dec (map key rows)).

(** [COUNT(col)]: the rows of the group whose [col] is not NULL. *)
Definition count_non_null {A B} (col : A -> option B) (group : list A) : Z :=
  Z.of_nat (List.length
              (filter (fun row => match col row with Some _ => true | None => false end)
                      group)).

(** The output row of one group: [r.id, r.title, r.date_created] and
    [COUNT(c.id)]. *)
Definition index_row (group : list (Role.t * option Candidate.t))
    : list IndexRow.t :=
  match group with
  | [] => []
  | (r, _) :: _ =>
      [IndexRow.make (Role.id r) (Role.title r) (Role.date_created r)
         (count_non_null (fun row => option_map Candidate.id (snd row)) group)]
  end.

(** [SELECT r.id, r.title, r.date_created, COUNT(c.id) AS candidate_count
     FROM roles r LEFT JOIN candidates c ON r.id = c.role_id
     GROUP BY r.id ORDER BY r.date_created DESC]; TEXT columns compare
    byte by byte. *)
Definition select_roles_with_counts (d : database) : list IndexRow.t :=
  order_by (fun x y => String.leb (IndexRow.date_created y) (IndexRow.date_created x))
    (flat_map index_row
       (group_by (fun row => Role.id (fst row))
          (left_join (fun r c => Role.id r =? Candidate.role_id c)
             (roles d) (candidates d)))).

(* ===================================================================== *)
(** ** The world a request runs in *)
(* ===================================================================== *)

Record world : Type := mk_world {
  durable : database;            (* the database file as of the last commit *)
  conn : option database;        (* the open connection: durable rows plus
                                    the uncommitted ones *)
  flashes : list (string * string);  (* the session's (category, message) *)
  random_state : rng;
  faults : option nat            (* storage calls that succeed before one
                                    raises; None: none raises *)
}.

Definition set_durable (d : database) (w : world) : world :=
  mk_world d (conn w) (flashes w) (random_state w) (faults w).
Definition set_conn (c : option database) (w : world) : world :=
  mk_world (durable w) c (flashes w) (random_state w) (faults w).
Definition set_flashes (f : list (string * string)) (w : world) : world :=
  mk_world (durable w) (conn w) f (random_state w) (faults w).
Definition set_random_state (g : rng) (w : world) : world :=
  mk_world (durable w) (conn w) (flashes w) g (faults w).
Definition set_faults (f : option nat) (w : world) : world :=
  mk_world (durable w) (conn w) (flashes w) (random_state w) f.

(** Run code of the [random] module on the process-wide generator. *)
Definition with_random {A} (m : M rng A) : M world A :=
  fun w => let (r, g) := m (random_state w) in (r, set_random_state g w).

(** [flash(message, category)] *)
Definition flash (message category : string) : M world unit :=
  modify (fun w => set_flashes (flashes w ++ [(category, message)]) w).

(** Every call into SQLite passes here first. *)
Definition storage_call : M world unit :=
  fun w => match faults w with
           | None => (Ok tt, w)
           | Some O => (Raised OperationalError, w)
           | Some (S k) => (Ok tt, set_faults (Some k) w)
           end.

(** [get_db_connection()]: the new connection sees the committed rows. *)
Definition get_db_connection : M world unit :=
  storage_call ;; modify (fun w => set_conn (Some (durable w)) w).

(** [conn.execute(SELECT ...).fetchone()/.fetchall()] *)
Definition conn_query {A} (q : database -> A) : M world A :=
  storage_call ;;
  fun w => match conn w with
           | Some v => (Ok (q v), w)
           | None => (Raised ProgrammingError, w)
           end.

(** An SQLite INTEGER has 64 bits, sign included. *)
Definition sqlite_integer (n : Z) : bool :=
  (- 9223372036854775808 <=? n) && (n <? 9223372036854775808).

(** [conn.execute(SELECT ... WHERE col = ?, (param,))] with a Python int for
    the placeholder: the statement is prepared, then the parameter is bound,
    and binding an int outside the 64 bits raises OverflowError. *)
Definition conn_query_int {A} (param : Z) (q : database -> A) : M world A :=
  storage_call ;;
  fun w => match conn w with
           | Some v =>
               if sqlite_integer param then (Ok (q v), w)
               else (Raised OverflowError, w)
           | None => (Raised ProgrammingError, w)
           end.

(** [cur.execute(INSERT ...)]; the value is [cur.lastrowid]. The row is
    visible on the connection and not yet in the file. *)
Definition cur_execute (u : database -> Z * database) : M world Z :=
  storage_call ;;
  fun w => match conn w with
           | Some v => let (rowid, v') := u v in (Ok rowid, set_conn (Some v') w)
           | None => (Raised ProgrammingError, w)
           end.

(** [conn.commit()] *)
Definition conn_commit : M world unit :=
  storage_call ;;
  fun w => match conn w with
           | Some v => (Ok tt, set_durable v w)
           | None => (Raised ProgrammingError, w)
           end.

(** [conn.close()]: what was not committed is dropped. *)
Definition conn_close : M world unit := modify (set_conn None).

(* ===================================================================== *)
(** ** The request handlers *)
(* ===================================================================== *)

Inductive http_method : Type := GET | HEAD | POST.

Inductive endpoint : Type :=
| ep_index
| ep_new_role
| ep_view_role (role_id : Z).

(** [url_for(endpoint, **values)] for the three routes. *)
Definition url_for (e : endpoint) : string :=
  match e with
  | ep_index => "/"
  | ep_new_role => "/role/new"
  | ep_view_role role_id => ("/role/" ++ str_of_Z role_id)%string
  end.

Inductive template_context : Type :=
| ctx_index (roles : list IndexRow.t)
| ctx_new_role
| ctx_role (role : Role.t) (candidates : list Candidate.t).

Inductive response : Type :=
| Render (template : string) (context : template_context)
| Redirect (location : string).

(** [request.form.get(key)]: the first value submitted under [key]. *)
Fixpoint form_get (key : string) (form : list (string * string)) : option string :=
  match form with
  | [] => None
  | (k, v) :: rest => if (k =? key)%string then Some v else form_get key rest
  end.

(** The text bound to a [?] placeholder. *)
Definition text (v : option string) : string :=
  match v with Some s => s | None => "" end.

(** [index()] *)
Definition index : M world response :=
  get_db_connection ;;
  roles <- conn_query select_roles_with_counts ;;
  conn_close ;;
  ret (Render "index.html" (ctx_index roles)).

(** [new_role()]; [utcnow] is [datetime.utcnow().isoformat()]. *)
Definition new_role (method : http_method) (form : list (string * string))
    (utcnow : string) : M world response :=
  match method with
  | POST =>
      let title := form_get "title" form in
      let description := form_get "description" form in
      if negb (truthy title) || negb (truthy description) then
        flash "Please provide both a title and a job description." "danger" ;;
        ret (Redirect (url_for ep_new_role))
      else
        get_db_connection ;;
        role_id <- cur_execute (insert_role (text title) (text description) utcnow) ;;
        conn_commit ;;
        candidates <- with_random (generate_dummy_candidates (text title) (Some 10)) ;;
        for_each candidates
          (fun candidate => cur_execute (insert_candidate role_id candidate) ;; ret tt) ;;
        conn_commit ;;
        conn_close ;;
        flash "Role created and candidates generated successfully!" "success" ;;
        ret (Redirect (url_for (ep_view_role role_id)))
  | _ => ret (Render "new_role.html" ctx_new_role)
  end.

(** [view_role(role_id)]; the route's [int] converter passes every run of
    digits, so [role_id] is any integer that is not negative. *)
Definition view_role (role_id : Z) : M world response :=
  get_db_connection ;;
  role <- conn_query_int role_id (select_role role_id) ;;
  candidates <- conn_query_int role_id (select_candidates role_id) ;;
  conn_close ;;
  match role with
  | None =>
      flash "Role not found." "danger" ;;
      ret (Redirect (url_for ep_index))
  | Some r => ret (Render "role.html" (ctx_role r candidates))
  end.

(** *** Serving requests *)

Inductive request : Type :=
| req_index
| req_new_role (method : http_method) (form : list (string * string))
    (utcnow : string)
| req_view_role (role_id : Z).

Definition dispatch (r : request) : M world response :=
  match r with
  | req_index => index
  | req_new_role method form utcnow => new_role method form utcnow
  | req_view_role role_id => view_role role_id
  end.

(** The world at handler entry: the file as it stands and no connection. *)
Definition at_entry (d : database) (session : list (string * string))
    (g : rng) (f : option nat) : world :=
  mk_world d None session g f.

(** The database files the application can produce from a new file, under
    any requests, random draws and storage failures. *)
Inductive reachable : database -> Prop :=
| reach_new : reachable empty_database
| reach_serve d r session g f :
    reachable d ->
    reachable (durable (snd (dispatch r (at_entry d session g f)))).

(* ===================================================================== *)
(** ** Predicates used in the statements *)
(* ===================================================================== *)

(** A score is an integer of the closed range 60..100. *)
Definition score_in_range (z : Z) : Prop := 60 <= z <= 100.

(** What one generated dictionary looks like for a given [role_title]. *)
Definition profile_ok (role_title : string) (p : Profile.t) : Prop :=
  (exists first last,
      In first first_names /\ In last last_names /\
      Profile.name p = (first ++ " " ++ last)%string /\
      Profile.linkedin p = linkedin_url first last) /\
  In (Profile.current_title p) (title_variants role_title) /\
  In (Profile.company p) companies /\
  In (Profile.location p) locations /\
  In (Profile.match_reason p) match_reasons /\
  score_in_range (Profile.fit_score p) /\
  score_in_range (Profile.culture_score p) /\
  score_in_range (Profile.experience_score p).

(** The scores of a stored candidate row. *)
Definition candidate_scores_ok (c : Candidate.t) : Prop :=
  score_in_range (Candidate.fit_score c) /\
  score_in_range (Candidate.culture_score c) /\
  score_in_range (Candidate.experience_score c).

(** The PRIMARY KEY constraint of both tables. *)
Definition primary_keys_unique (d : database) : Prop :=
  NoDup (map Role.id (roles d)) /\ NoDup (map Candidate.id (candidates d)).

(** The candidate rows that belong to a role. *)
Definition candidates_of (role_id : Z) (d : database) : list Candidate.t :=
  filter (fun c => Candidate.role_id c =? role_id) (candidates d).

(** The rows [insert_candidate] adds for a batch of dictionaries, applied in
    order to a connection view. *)
Definition insert_candidates (role_id : Z) (batch : list Profile.t)
    (d : database) : database :=
  fold_left (fun v candidate => snd (insert_candidate role_id candidate v)) batch d.

(** The rows the join gives for one role. *)
Definition joined_rows (candidates : list Candidate.t) (r : Role.t)
    : list (Role.t * option Candidate.t) :=
  match filter (fun c => Role.id r =? Candidate.role_id c) candidates with
  | [] => [(r, None)]
  | m => map (fun c => (r, Some c)) m
  end.

(** The listing row a role should get: its columns and the number of
    candidate rows that point to it. *)
Definition listing_row (d : database) (r : Role.t) : IndexRow.t :=
  IndexRow.make (Role.id r) (Role.title r) (Role.date_created r)
    (Z.of_nat (List.length (candidates_of (Role.id r) d))).

(** Role creation as one atomic unit, between the file [d] before the
    request and the file [d'] after it: nothing new, or one new role with
    its whole batch of 10 candidates. *)
Definition persists_all_or_nothing (d d' : database) : Prop :=
  d' = d \/
  exists r rows,
    roles d' = roles d ++ [r] /\
    candidates d' = candidates d ++ rows /\
    List.length rows = 10%nat /\
    Forall (fun c => Candidate.role_id c = Role.id r) rows.

(** An example file: two roles, the older one with two candidates, the
    newer one with none. *)
Definition two_roles : database :=
  mk_database
    [Role.make 1 "Backend Engineer" "Own our API" "2024-01-01T00:00:00";
     Role.make 2 "Designer" "Draw things" "2024-03-05T10:30:00.120000"]
    2
    [Candidate.make 1 1 "Emma Chen" "Lead Backend Engineer" "TechNova" "Remote"
       "https://linkedin.com/in/emmachen" "Excellent cultural alignment" 71 88 60;
     Candidate.make 2 1 "Noah Ali" "Backend Engineer II" "NextGen" "Austin, TX"
       "https://linkedin.com/in/noahali" "Highly recommended by references" 93 60 100]
    2.

(** [v] absent or the empty string. *)
Definition absent_or_empty (v : option string) : bool :=
  match v with
  | None => true
  | Some s => (s =? "")%string
  end.

(** The ASCII characters for which [str.isspace()] holds. *)
Definition is_space (c : ascii) : bool :=
  let n := nat_of_ascii c in
  ((n =? 32) || ((9 <=? n) && (n <=? 13)) || ((28 <=? n) && (n <=? 31)))%nat.

Fixpoint whitespace_only_rest (s : string) : bool :=
  match s with
  | EmptyString => true
  | String c rest => is_space c && whitespace_only_rest rest
  end.

(** A non-empty string made of whitespace only. *)
Definition whitespace_only (s : string) : bool :=
  match s with
  | EmptyString => false
  | String _ _ => whitespace_only_rest s
  end.

(** Does the next storage call raise? *)
Definition call_fails (f : option nat) : bool :=
  match f with Some O => true | _ => false end.

(** The failure budget after a storage call that succeeded. *)
Definition after_call (f : option nat) : option nat :=
  match f with Some k => Some (Nat.pred k) | None => None end.

(** The failure budget after [n] storage calls that succeeded. *)
Definition after_calls (n : nat) (f : option nat) : option nat :=
  match f with Some k => Some (k - n)%nat | None => None end.

(** Do [n] storage calls in a row all succeed? *)
Definition calls_succeed (n : nat) (f : option nat) : bool :=
  match f with Some k => (n <=? k)%nat | None => true end.

(** The loop body of [new_role]. *)
Definition insert_body (role_id : Z) (candidate : Profile.t) : M world unit :=
  cur_execute (insert_candidate role_id candidate) ;; ret tt.

(** A database invariant seen from a world: it holds of the file and of the
    open connection. *)
Definition holds_in (I : database -> Prop) (w : world) : Prop :=
  I (durable w) /\ forall v, conn w = Some v -> I v.

(** The scores of every stored candidate are in range. *)
Definition all_scores_ok (d : database) : Prop :=
  Forall candidate_scores_ok (candidates d).

(** The dictionary a candidate row was inserted from. *)
Definition profile_of_row (c : Candidate.t) : Profile.t :=
  Profile.make (Candidate.name c) (Candidate.current_title c)
    (Candidate.company c) (Candidate.location c) (Candidate.linkedin c)
    (Candidate.match_reason c) (Candidate.fit_score c)
    (Candidate.culture_score c) (Candidate.experience_score c).

(** [FOREIGN KEY(role_id) REFERENCES roles(id)], as a property of the rows
    (SQLite does not enforce it unless asked to). *)
Definition foreign_keys_valid (d : database) : Prop :=
  Forall (fun c => In (Candidate.role_id c) (map Role.id (roles d))) (candidates d).

(** The rowids of a table grow with the insertion order and none exceeds the
    table's AUTOINCREMENT counter. *)
Definition rowids_increasing (ids : list Z) (seq : Z) : Prop :=
  StronglySorted Z.lt ids /\ Forall (fun i => 0 < i <= seq) ids.

(** What one request can do to the database file. *)
Inductive transition (d : database) : database -> Prop :=
| tr_none : transition d d
| tr_role t ds utcnow :
    t <> "" -> ds <> "" ->
    transition d (snd (insert_role t ds utcnow d))
| tr_role_batch t ds utcnow batch :
    t <> "" -> ds <> "" ->
    List.length batch = 10%nat -> Forall (profile_ok t) batch ->
    transition d
      (insert_candidates (fst (insert_role t ds utcnow d)) batch
         (snd (insert_role t ds utcnow d))).

(** A lowercase ASCII letter. *)
Definition is_lower_letter (c : ascii) : bool :=
  let n := nat_of_ascii c in ((97 <=? n) && (n <=? 122))%nat.

Fixpoint string_forallb (p : ascii -> bool) (s : string) : bool :=
  match s with
  | EmptyString => true
  | String c rest => p c && string_forallb p rest
  end.

(** What a request adds to the file [d]: nothing, or one role with a
    fresh id and non-empty fields, alone or with 10 candidate rows that
    carry its id and were generated for its title. *)
Definition added_by_request (d : database) (new_roles : list Role.t)
    (new_rows : list Candidate.t) : Prop :=
  (new_roles = [] /\ new_rows = []) \/
  exists r,
    new_roles = [r] /\
    ~ In (Role.id r) (map Role.id (roles d)) /\
    Role.title r <> "" /\ Role.description r <> "" /\
    (new_rows = [] \/ List.length new_rows = 10%nat) /\
    Forall (fun c => Candidate.role_id c = Role.id r /\
                     profile_ok (Role.title r) (profile_of_row c)) new_rows.

(** Every candidate row belongs to a role row and looks as the generator
    made it for the title of that role. *)
Definition candidates_match_roles (d : database) : Prop :=
  Forall (fun c => exists r,
              In r (roles d) /\ Role.id r = Candidate.role_id c /\
              profile_ok (Role.title r) (profile_of_row c))
         (candidates d).

(** The file after one accepted submission on a new file. *)
Definition after_one_post : database :=
  durable (snd (dispatch
                  (req_new_role POST
                     [("title", "Backend Engineer"); ("description", "Own our API")]
                     "2024-01-01T00:00:00")
                  (at_entry empty_database []
                     [3; 14; 15; 92; 65; 35; 89; 79; 32]%nat None))).

(** The sum of a list of integers. *)
Definition total (l : list Z) : Z := fold_right Z.add 0 l.

(** *** The URL map

    The three [@app.route] rules, as the router matches a request path
    against them (exact paths, no trailing-slash redirect). *)

(** [s] without the prefix [p], when it starts with it. *)
Fixpoint strip_prefix (p s : string) : option string :=
  match p with
  | EmptyString => Some s
  | String a p' =>
      match s with
      | EmptyString => None
      | String b s' => if Ascii.eqb a b then strip_prefix p' s' else None
      end
  end.

(** The [int] converter of [<int:role_id>]: one or more decimal digits, read
    as a number. *)
Definition int_converter (s : string) : option Z :=
  option_map Z.of_uint (NilZero.uint_of_string s).

Definition match_route (path : string) : option endpoint :=
  if (path =? "/")%string then Some ep_index
  else if (path =? "/role/new")%string then Some ep_new_role
  else match strip_prefix "/role/" path with
       | Some rest => option_map ep_view_role (int_converter rest)
       | None => None
       end.

(** [m] keeps the invariant [I], whatever its outcome, and a value it
    returns satisfies [Q]. *)
Definition keeps {S A} (I : S -> Prop) (m : M S A) (Q : A -> Prop) : Prop :=
  forall s, I s ->
    I (snd (m s)) /\
    match fst (m s) with Ok a => Q a | Raised _ => True end.

(* ===================================================================== *)
(** ** Running monadic code *)
(* ===================================================================== *)

Section MonadFacts.
Context {S : Type}.

Lemma bind_ok {A B} (m : M S A) (k : A -> M S B) s a s' :
  m s = (Ok a, s') -> bind m k s = k a s'.
Proof. intros E. unfold bind. rewrite E. reflexivity. Qed.

Lemma bind_raised {A B} (m : M S A) (k : A -> M S B) s e s' :
  m s = (Raised e, s') -> bind m k s = (Raised e, s').
Proof. intros E. unfold bind. rewrite E. reflexivity. Qed.

Lemma keeps_ret {A} (I : S -> Prop) (a : A) (Q : A -> Prop) :
  Q a -> keeps I (ret a) Q.
Proof. intros Ha s Hs. split; assumption. Qed.

Lemma keeps_bind {A B} (I : S -> Prop) (m : M S A) (k : A -> M S B)
      (Q : A -> Prop) (R : B -> Prop) :
  keeps I m Q -> (forall a, Q a -> keeps I (k a) R) -> keeps I (bind m k) R.
Proof.
  intros Hm Hk s Hs. specialize (Hm s Hs). unfold bind.
  destruct (m s) as [[a | e] s1]; simpl in Hm.
  - destruct Hm as [H1 Ha]. exact (Hk a Ha s1 H1).
  - simpl. tauto.
Qed.

Lemma keeps_weaken {A} (I : S -> Prop) (m : M S A) (Q R : A -> Prop) :
  keeps I m Q -> (forall a, Q a -> R a) -> keeps I m R.
Proof.
  intros Hm HQR s Hs. destruct (Hm s Hs) as [H1 H2]. split; [exact H1 |].
  destruct (fst (m s)); auto.
Qed.

Lemma keeps_for_each {A} (I : S -> Prop) (P : A -> Prop) (xs : list A)
      (body : A -> M S unit) :
  Forall P xs ->
  (forall x, P x -> keeps I (body x) (fun _ => True)) ->
  keeps I (for_each xs body) (fun _ => True).
Proof.
  intros Hxs Hbody. induction Hxs as [| x xs Hx _ IH]; simpl.
  - apply keeps_ret. exact Logic.I.
  - eapply keeps_bind; [apply Hbody, Hx |]. intros _ _. exact IH.
Qed.
End MonadFacts.

(* ===================================================================== *)
(** ** The random module returns what it promises *)
(* ===================================================================== *)

Lemma randbelow_lt n g :
  (0 < n)%nat -> exists i g', randbelow n g = (Ok i, g') /\ (i < n)%nat.
Proof.
  intros Hn. destruct g as [| x g']; simpl.
  - exists 0%nat, []. split; [reflexivity | exact Hn].
  - exists (x mod n)%nat, g'. split; [reflexivity |].
    apply Nat.mod_upper_bound. lia.
Qed.

Lemma random_choice_In {A} (seq : list A) g :
  seq <> [] -> exists x g', random_choice seq g = (Ok x, g') /\ In x seq.
Proof.
  intros Hne. destruct seq as [| a seq']; [congruence |].
  destruct (randbelow_lt (List.length (a :: seq')) g) as (i & g' & E & Hi);
    [simpl; lia |].
  unfold random_choice. rewrite (bind_ok _ _ _ _ _ E).
  destruct (nth_error (a :: seq') i) as [x |] eqn:Hnth.
  - exists x, g'. split; [reflexivity |]. eapply nth_error_In, Hnth.
  - apply nth_error_None in Hnth. lia.
Qed.

Lemma randint_range a b g :
  a <= b -> exists z g', randint a b g = (Ok z, g') /\ a <= z <= b.
Proof.
  intros Hab. unfold randint.
  destruct (Z.ltb_spec b a) as [Hlt | _]; [lia |].
  destruct (randbelow_lt (Z.to_nat (b - a + 1)) g) as (i & g' & E & Hi); [lia |].
  rewrite (bind_ok _ _ _ _ _ E). exists (a + Z.of_nat i), g'.
  split; [reflexivity | lia].
Qed.

(** Run the next [random.choice] or [random.randint] of a goal about a
    sequence of binds. *)
Ltac draw_choice x Hx :=
  match goal with
  | |- context [bind (random_choice ?seq) ?k ?g] =>
      let g' := fresh "g" in
      let E := fresh "E" in
      destruct (random_choice_In seq g) as (x & g' & E & Hx);
      [discriminate | rewrite (bind_ok _ k _ _ _ E); clear E; cbv beta]
  end.

Ltac draw_randint z Hz :=
  match goal with
  | |- context [bind (randint ?a ?b) ?k ?g] =>
      let g' := fresh "g" in
      let E := fresh "E" in
      destruct (randint_range a b g) as (z & g' & E & Hz);
      [lia | rewrite (bind_ok _ k _ _ _ E); clear E; cbv beta]
  end.

Lemma generate_one_ok role_title g :
  exists p g', generate_one role_title g = (Ok p, g') /\ profile_ok role_title p.
Proof.
  unfold generate_one.
  draw_choice name1 Hfirst. draw_choice name2 Hlast.
  draw_choice current_title Htitle. draw_choice company Hcompany.
  draw_choice location Hlocation. draw_choice match_reason Hreason.
  draw_randint fit Hfit. draw_randint culture Hculture.
  draw_randint experience Hexperience.
  eexists _, _. split; [reflexivity |].
  unfold profile_ok, score_in_range; simpl.
  repeat split; try assumption; try lia.
  exists name1, name2. repeat split; assumption.
Qed.

Lemma generate_loop_ok role_title n :
  forall acc g, exists batch g',
    generate_loop role_title n acc g = (Ok (acc ++ batch), g') /\
    List.length batch = n /\ Forall (profile_ok role_title) batch.
Proof.
  induction n as [| n IH]; intros acc g; simpl.
  - exists [], g. rewrite app_nil_r. repeat split. constructor.
  - destruct (generate_one_ok role_title g) as (p & g1 & E & Hp).
    rewrite (bind_ok _ _ _ _ _ E).
    destruct (IH (acc ++ [p]) g1) as (batch & g2 & E2 & Hlen & Hall).
    exists (p :: batch), g2. rewrite E2, <- app_assoc. simpl.
    repeat split; [congruence | constructor; assumption].
Qed.

Lemma generate_dummy_candidates_ok role_title num_candidates g :
  exists batch g',
    generate_dummy_candidates role_title num_candidates g = (Ok batch, g') /\
    List.length batch =
      Z.to_nat (match num_candidates with Some n => n | None => 10 end) /\
    Forall (profile_ok role_title) batch.
Proof.
  unfold generate_dummy_candidates.
  destruct (generate_loop_ok role_title
              (Z.to_nat (match num_candidates with Some n => n | None => 10 end))
              [] g) as (batch & g' & E & Hlen & Hall).
  exists batch, g'. simpl in E. auto.
Qed.

(* ===================================================================== *)
(** ** Strings *)
(* ===================================================================== *)

Lemma prefix_append (t s : string) : String.prefix t (t ++ s) = true.
Proof.
  induction t as [| c t IH]; simpl.
  - destruct s; reflexivity.
  - destruct (ascii_dec c c) as [_ | Hne]; [exact IH | congruence].
Qed.

Lemma contains_prefix (t s : string) :
  String.prefix t s = true -> contains t s = true.
Proof. intros H. destruct s; cbn [contains]; rewrite H; reflexivity. Qed.

Lemma contains_inside (p t s : string) : contains t (p ++ t ++ s) = true.
Proof.
  induction p as [| c p IH]; simpl.
  - apply contains_prefix, prefix_append.
  - rewrite IH. apply orb_true_r.
Qed.

Lemma contains_suffixed (t s : string) : contains t (t ++ s) = true.
Proof. exact (contains_inside "" t s). Qed.

Lemma contains_prefixed (p t : string) : contains t (p ++ t) = true.
Proof.
  induction p as [| c p IH]; simpl.
  - apply contains_prefix. induction t as [| c t IH]; simpl; [reflexivity |].
    destruct (ascii_dec c c); [exact IH | congruence].
  - rewrite IH. apply orb_true_r.
Qed.

Lemma truthy_absent_or_empty (v : option string) :
  truthy v = negb (absent_or_empty v).
Proof. destruct v as [[| c s] |]; reflexivity. Qed.

Lemma whitespace_only_not_empty (s : string) :
  whitespace_only s = true -> absent_or_empty (Some s) = false.
Proof. destruct s; simpl; [discriminate | reflexivity]. Qed.

(* ===================================================================== *)
(** ** ORDER BY returns the same rows, in order *)
(* ===================================================================== *)

Section OrderByFacts.
Context {A : Type}.
Variable before : A -> A -> bool.
Hypothesis before_total : forall x y, before x y = true \/ before y x = true.

Let ordered (x y : A) : Prop := before x y = true.

Lemma place_permutation x rows : Permutation (place before x rows) (x :: rows).
Proof.
  induction rows as [| y rows IH]; simpl.
  - apply Permutation_refl.
  - destruct (before x y).
    + apply Permutation_refl.
    + eapply perm_trans; [apply perm_skip, IH | apply perm_swap].
Qed.

Lemma order_by_permutation rows : Permutation (order_by before rows) rows.
Proof.
  induction rows as [| x rows IH]; simpl.
  - apply perm_nil.
  - eapply perm_trans; [apply place_permutation | apply perm_skip, IH].
Qed.

Lemma place_HdRel y x rows :
  ordered y x -> HdRel ordered y rows -> HdRel ordered y (place before x rows).
Proof.
  intros Hyx Hhd. destruct rows as [| z rows]; simpl.
  - constructor. exact Hyx.
  - destruct (before x z); constructor; [exact Hyx |].
    inversion Hhd; assumption.
Qed.

Lemma place_sorted x rows :
  Sorted ordered rows -> Sorted ordered (place before x rows).
Proof.
  induction 1 as [| y rows Hsorted IH Hhd]; simpl.
  - repeat constructor.
  - destruct (before x y) eqn:Hxy.
    + constructor; [constructor; assumption | constructor; exact Hxy].
    + constructor; [exact IH |]. apply place_HdRel; [| exact Hhd].
      destruct (before_total x y) as [H | H]; [congruence | exact H].
Qed.

Lemma order_by_sorted rows : Sorted ordered (order_by before rows).
Proof.
  induction rows as [| x rows IH]; simpl.
  - constructor.
  - apply place_sorted, IH.
Qed.
End OrderByFacts.

Lemma fit_score_desc_total (x y : Candidate.t) :
  (Candidate.fit_score y <=? Candidate.fit_score x) = true \/
  (Candidate.fit_score x <=? Candidate.fit_score y) = true.
Proof. rewrite !Z.leb_le. lia. Qed.

Lemma date_created_desc_total (x y : IndexRow.t) :
  String.leb (IndexRow.date_created y) (IndexRow.date_created x) = true \/
  String.leb (IndexRow.date_created x) (IndexRow.date_created y) = true.
Proof. apply String.leb_total. Qed.

(* ===================================================================== *)
(** ** Inserting rows *)
(* ===================================================================== *)

Lemma fold_max_upper (ids : list Z) (x : Z) :
  In x ids -> x <= fold_right Z.max 0 ids.
Proof.
  induction ids as [| y ids IH]; simpl; [tauto |].
  intros [-> | Hin]; [lia | specialize (IH Hin); lia].
Qed.

Lemma next_rowid_fresh (ids : list Z) (seq : Z) : ~ In (next_rowid ids seq) ids.
Proof.
  intros Hin. apply fold_max_upper in Hin. unfold next_rowid in Hin. lia.
Qed.

Lemma NoDup_snoc {A} (l : list A) (x : A) : NoDup l -> ~ In x l -> NoDup (l ++ [x]).
Proof.
  intros Hl Hx. apply NoDup_rev in Hl. rewrite <- (rev_involutive (l ++ [x])).
  apply NoDup_rev. rewrite rev_app_distr. simpl. constructor; [| exact Hl].
  rewrite <- in_rev. exact Hx.
Qed.

Lemma insert_role_keys title description date_created d :
  primary_keys_unique d ->
  primary_keys_unique (snd (insert_role title description date_created d)).
Proof.
  intros [Hr Hc]. split; simpl; [| exact Hc].
  rewrite map_app. simpl. apply NoDup_snoc; [exact Hr | apply next_rowid_fresh].
Qed.

Lemma insert_candidate_keys role_id candidate d :
  primary_keys_unique d ->
  primary_keys_unique (snd (insert_candidate role_id candidate d)).
Proof.
  intros [Hr Hc]. split; simpl; [exact Hr |].
  rewrite map_app. simpl. apply NoDup_snoc; [exact Hc | apply next_rowid_fresh].
Qed.

(** The batch insert leaves [roles] alone and appends one row per
    dictionary, all with the given [role_id]. *)
Lemma insert_candidates_rows role_id batch :
  forall d, exists rows,
    insert_candidates role_id batch d =
      mk_database (roles d) (roles_seq d) (candidates d ++ rows)
        (candidates_seq (insert_candidates role_id batch d)) /\
    List.length rows = List.length batch /\
    Forall (fun c => Candidate.role_id c = role_id) rows /\
    Forall2 (fun c p =>
               Candidate.name c = Profile.name p /\
               Candidate.current_title c = Profile.current_title p /\
               Candidate.company c = Profile.company p /\
               Candidate.location c = Profile.location p /\
               Candidate.linkedin c = Profile.linkedin p /\
               Candidate.match_reason c = Profile.match_reason p /\
               Candidate.fit_score c = Profile.fit_score p /\
               Candidate.culture_score c = Profile.culture_score p /\
               Candidate.experience_score c = Profile.experience_score p)
            rows batch.
Proof.
  induction batch as [| p batch IH]; intros d.
  - exists []. destruct d; simpl. rewrite app_nil_r. repeat split; constructor.
  - unfold insert_candidates in *. simpl fold_left.
    destruct (IH (snd (insert_candidate role_id p d))) as (rows & E & Hlen & Hrid & Hfields).
    eexists (_ :: rows). rewrite E at 1. simpl.
    rewrite <- app_assoc. simpl. split; [reflexivity |].
    split; [congruence |]. split; constructor; simpl; auto.
    repeat split.
Qed.

(* ===================================================================== *)
(** ** Running the storage calls *)
(* ===================================================================== *)

Section StorageRuns.
Variables (d : database) (fl : list (string * string)) (g : rng)
          (f : option nat).

Lemma run_get_db_connection {B} (k : unit -> M world B) c :
  bind get_db_connection k (mk_world d c fl g f) =
  if call_fails f then (Raised OperationalError, mk_world d c fl g f)
  else k tt (mk_world d (Some d) fl g (after_call f)).
Proof. destruct f as [[| n] |]; reflexivity. Qed.

Lemma run_conn_query {A B} (q : database -> A) (k : A -> M world B) v :
  bind (conn_query q) k (mk_world d (Some v) fl g f) =
  if call_fails f then (Raised OperationalError, mk_world d (Some v) fl g f)
  else k (q v) (mk_world d (Some v) fl g (after_call f)).
Proof. destruct f as [[| n] |]; reflexivity. Qed.

Lemma run_conn_query_int {A B} (param : Z) (q : database -> A)
      (k : A -> M world B) v :
  bind (conn_query_int param q) k (mk_world d (Some v) fl g f) =
  if call_fails f then (Raised OperationalError, mk_world d (Some v) fl g f)
  else if sqlite_integer param
       then k (q v) (mk_world d (Some v) fl g (after_call f))
       else (Raised OverflowError, mk_world d (Some v) fl g (after_call f)).
Proof.
  destruct f as [[| n] |]; unfold conn_query_int, storage_call, bind; simpl;
    destruct (sqlite_integer param); reflexivity.
Qed.

Lemma run_cur_execute {B} (u : database -> Z * database) (k : Z -> M world B) v :
  bind (cur_execute u) k (mk_world d (Some v) fl g f) =
  if call_fails f then (Raised OperationalError, mk_world d (Some v) fl g f)
  else k (fst (u v)) (mk_world d (Some (snd (u v))) fl g (after_call f)).
Proof.
  destruct (u v) as [rowid v'] eqn:E.
  destruct f as [[| n] |]; unfold cur_execute, storage_call, bind; simpl;
    try rewrite E; reflexivity.
Qed.

Lemma run_conn_commit {B} (k : unit -> M world B) v :
  bind conn_commit k (mk_world d (Some v) fl g f) =
  if call_fails f then (Raised OperationalError, mk_world d (Some v) fl g f)
  else k tt (mk_world v (Some v) fl g (after_call f)).
Proof. destruct f as [[| n] |]; reflexivity. Qed.

Lemma run_with_random {A B} (m : M rng A) (k : A -> M world B) c a g' :
  m g = (Ok a, g') ->
  bind (with_random m) k (mk_world d c fl g f) = k a (mk_world d c fl g' f).
Proof. intros E. unfold bind, with_random. simpl. rewrite E. reflexivity. Qed.
End StorageRuns.

(** The insert loop: every row needs one storage call; the loop stops at
    the first call that raises, with the rows inserted so far on the
    connection. *)
Lemma run_insert_loop role_id batch :
  forall d v fl g f,
    for_each batch (insert_body role_id) (mk_world d (Some v) fl g f) =
    if calls_succeed (List.length batch) f
    then (Ok tt,
          mk_world d (Some (insert_candidates role_id batch v)) fl g
            (after_calls (List.length batch) f))
    else (Raised OperationalError,
          mk_world d
            (Some (insert_candidates role_id
                     (firstn (match f with Some k => k | None => O end) batch) v))
            fl g (Some O)).
Proof.
  induction batch as [| p batch IH]; intros d v fl g f.
  - destruct f as [k |]; simpl; [rewrite Nat.sub_0_r |]; reflexivity.
  - cbn [for_each]. fold (insert_body role_id p). unfold insert_body at 1.
    unfold bind at 1. rewrite run_cur_execute.
    destruct f as [[| k] |]; cbn [call_fails after_call].
    + reflexivity.
    + cbn [ret]. rewrite IH. simpl. destruct (k <=? List.length batch)%nat; reflexivity.
    + cbn [ret]. rewrite IH. reflexivity.
Qed.

Lemma run_insert_loop_then {B} role_id batch (k : unit -> M world B) d v fl g f :
  bind (for_each batch (insert_body role_id)) k (mk_world d (Some v) fl g f) =
  if calls_succeed (List.length batch) f
  then k tt (mk_world d (Some (insert_candidates role_id batch v)) fl g
               (after_calls (List.length batch) f))
  else (Raised OperationalError,
        mk_world d
          (Some (insert_candidates role_id
                   (firstn (match f with Some k => k | None => O end) batch) v))
          fl g (Some O)).
Proof.
  unfold bind. rewrite run_insert_loop.
  destruct (calls_succeed (List.length batch) f); reflexivity.
Qed.

(* ===================================================================== *)
(** ** Running [new_role] *)
(* ===================================================================== *)

Lemma truthy_present (s : string) : s <> "" -> truthy (Some s) = true.
Proof. destruct s; [congruence | reflexivity]. Qed.

Lemma new_role_accepts form utcnow t ds w :
  form_get "title" form = Some t -> form_get "description" form = Some ds ->
  t <> "" -> ds <> "" ->
  new_role POST form utcnow w =
  (get_db_connection ;;
   role_id <- cur_execute (insert_role t ds utcnow) ;;
   conn_commit ;;
   candidates <- with_random (generate_dummy_candidates t (Some 10)) ;;
   for_each candidates (insert_body role_id) ;;
   conn_commit ;;
   conn_close ;;
   flash "Role created and candidates generated successfully!" "success" ;;
   ret (Redirect (url_for (ep_view_role role_id)))) w.
Proof.
  intros Ht Hd Hne1 Hne2. unfold new_role. rewrite Ht, Hd.
  rewrite (truthy_present t Hne1), (truthy_present ds Hne2). reflexivity.
Qed.

Lemma new_role_rejects form utcnow w :
  absent_or_empty (form_get "title" form) || absent_or_empty (form_get "description" form) = true ->
  new_role POST form utcnow w =
  (Ok (Redirect "/role/new"),
   set_flashes
     (flashes w ++ [("danger", "Please provide both a title and a job description.")]) w).
Proof.
  intros H. unfold new_role. rewrite !truthy_absent_or_empty, !negb_involutive, H.
  reflexivity.
Qed.

(** The run without storage failure. *)
Lemma new_role_post_ok form utcnow d session g t ds batch g' :
  form_get "title" form = Some t -> form_get "description" form = Some ds ->
  t <> "" -> ds <> "" ->
  generate_dummy_candidates t (Some 10) g = (Ok batch, g') ->
  let role_id := fst (insert_role t ds utcnow d) in
  new_role POST form utcnow (at_entry d session g None) =
  (Ok (Redirect (url_for (ep_view_role role_id))),
   mk_world (insert_candidates role_id batch (snd (insert_role t ds utcnow d)))
     None
     (session ++ [("success", "Role created and candidates generated successfully!")])
     g' None).
Proof.
  intros Ht Hd Hne1 Hne2 Hgen role_id.
  rewrite (new_role_accepts form utcnow t ds _ Ht Hd Hne1 Hne2). unfold at_entry.
  rewrite run_get_db_connection. cbn [call_fails after_call].
  rewrite run_cur_execute. cbn [call_fails after_call].
  rewrite run_conn_commit. cbn [call_fails after_call].
  rewrite (run_with_random _ _ _ _ _ _ _ _ _ Hgen).
  rewrite run_insert_loop_then. cbn [calls_succeed after_calls].
  rewrite run_conn_commit. cbn [call_fails after_call].
  reflexivity.
Qed.

(** The run when the storage call number [k + 1] raises: what the client
    gets and what the database file holds afterwards. *)
Lemma new_role_post_faulty form utcnow d session g k t ds batch g' :
  form_get "title" form = Some t -> form_get "description" form = Some ds ->
  t <> "" -> ds <> "" ->
  generate_dummy_candidates t (Some 10) g = (Ok batch, g') ->
  List.length batch = 10%nat ->
  let role_id := fst (insert_role t ds utcnow d) in
  let out := new_role POST form utcnow (at_entry d session g (Some k)) in
  (fst out, durable (snd out)) =
  if (k <? 3)%nat then (Raised OperationalError, d)
  else if (k <? 14)%nat
       then (Raised OperationalError, snd (insert_role t ds utcnow d))
       else (Ok (Redirect (url_for (ep_view_role role_id))),
             insert_candidates role_id batch (snd (insert_role t ds utcnow d))).
Proof.
  intros Ht Hd Hne1 Hne2 Hgen Hlen role_id out. subst out.
  rewrite (new_role_accepts form utcnow t ds _ Ht Hd Hne1 Hne2). unfold at_entry.
  rewrite run_get_db_connection.
  destruct k as [| k]; [reflexivity |]. cbn [call_fails after_call Nat.pred].
  rewrite run_cur_execute.
  destruct k as [| k]; [reflexivity |]. cbn [call_fails after_call Nat.pred].
  rewrite run_conn_commit.
  destruct k as [| k]; [reflexivity |]. cbn [call_fails after_call Nat.pred].
  rewrite (run_with_random _ _ _ _ _ _ _ _ _ Hgen).
  rewrite run_insert_loop_then, Hlen. cbn [calls_succeed after_calls].
  change (S (S (S k)) <? 3)%nat with false. cbv iota.
  destruct (Nat.leb_spec 10 k) as [Hk | Hk].
  - rewrite run_conn_commit.
    destruct (k - 10)%nat as [| j] eqn:Hj; cbn [call_fails after_call Nat.pred].
    + destruct (Nat.ltb_spec (S (S (S k))) 14); [reflexivity | lia].
    + destruct (Nat.ltb_spec (S (S (S k))) 14); [lia | reflexivity].
  - destruct (Nat.ltb_spec (S (S (S k))) 14); [reflexivity | lia].
Qed.

(* ===================================================================== *)
(** ** Invariants of the database file *)
(* ===================================================================== *)

Section Invariants.
Variable I : database -> Prop.
Hypothesis insert_role_keeps :
  forall title description date_created v,
    I v -> I (snd (insert_role title description date_created v)).
Hypothesis insert_candidate_keeps :
  forall role_title role_id p v,
    profile_ok role_title p -> I v -> I (snd (insert_candidate role_id p v)).

Lemma keeps_storage_call : keeps (holds_in I) storage_call (fun _ => True).
Proof.
  intros w Hw. unfold storage_call.
  destruct (faults w) as [[| k] |]; simpl; auto.
Qed.

Lemma keeps_get_db_connection :
  keeps (holds_in I) get_db_connection (fun _ => True).
Proof.
  eapply keeps_bind; [apply keeps_storage_call |]. intros _ _ w [Hd Hc].
  simpl. split; [| exact Logic.I]. split; [exact Hd |].
  intros v [= <-]. exact Hd.
Qed.

Lemma keeps_conn_query {A} (q : database -> A) :
  keeps (holds_in I) (conn_query q) (fun _ => True).
Proof.
  eapply keeps_bind; [apply keeps_storage_call |]. intros _ _ w Hw.
  destruct (conn w); simpl; auto.
Qed.

Lemma keeps_conn_query_int {A} (param : Z) (q : database -> A) :
  keeps (holds_in I) (conn_query_int param q) (fun _ => True).
Proof.
  eapply keeps_bind; [apply keeps_storage_call |]. intros _ _ w Hw.
  destruct (conn w); simpl; [destruct (sqlite_integer param) |]; simpl; auto.
Qed.

Lemma keeps_cur_execute (u : database -> Z * database) :
  (forall v, I v -> I (snd (u v))) ->
  keeps (holds_in I) (cur_execute u) (fun _ => True).
Proof.
  intros Hu. eapply keeps_bind; [apply keeps_storage_call |].
  intros _ _ w [Hd Hc]. destruct (conn w) as [v |] eqn:E; simpl.
  - specialize (Hu v (Hc v eq_refl)). destruct (u v) as [rowid v']. simpl in *.
    split; [| exact Logic.I]. split; [exact Hd |]. intros v0 [= <-]. exact Hu.
  - split; [| exact Logic.I]. split; [exact Hd |]. rewrite E. discriminate.
Qed.

Lemma keeps_conn_commit : keeps (holds_in I) conn_commit (fun _ => True).
Proof.
  eapply keeps_bind; [apply keeps_storage_call |].
  intros _ _ w [Hd Hc]. destruct (conn w) as [v |] eqn:E; simpl.
  - split; [| exact Logic.I]. split; [apply Hc; reflexivity |].
    intros v0 Hv0. apply Hc. simpl in Hv0. rewrite <- E. exact Hv0.
  - split; [| exact Logic.I]. split; [exact Hd |]. rewrite E. discriminate.
Qed.

Lemma keeps_conn_close : keeps (holds_in I) conn_close (fun _ => True).
Proof.
  intros w [Hd Hc]. simpl. split; [| exact Logic.I]. split; [exact Hd | discriminate].
Qed.

Lemma keeps_flash message category :
  keeps (holds_in I) (flash message category) (fun _ => True).
Proof. intros w Hw. simpl. split; [exact Hw | exact Logic.I]. Qed.

Lemma keeps_with_random {A} (m : M rng A) (Q : A -> Prop) :
  (forall g, match fst (m g) with Ok a => Q a | Raised _ => True end) ->
  keeps (holds_in I) (with_random m) Q.
Proof.
  intros Hm w Hw. unfold with_random. specialize (Hm (random_state w)).
  destruct (m (random_state w)) as [r g']. simpl in *. split; [exact Hw | exact Hm].
Qed.

Lemma keeps_index : keeps (holds_in I) index (fun _ => True).
Proof.
  unfold index.
  eapply keeps_bind; [apply keeps_get_db_connection | intros _ _].
  eapply keeps_bind; [apply keeps_conn_query | intros rows _].
  eapply keeps_bind; [apply keeps_conn_close | intros _ _].
  apply keeps_ret. exact Logic.I.
Qed.

Lemma keeps_view_role role_id :
  keeps (holds_in I) (view_role role_id) (fun _ => True).
Proof.
  unfold view_role.
  eapply keeps_bind; [apply keeps_get_db_connection | intros _ _].
  eapply keeps_bind; [apply keeps_conn_query_int | intros role _].
  eapply keeps_bind; [apply keeps_conn_query_int | intros rows _].
  eapply keeps_bind; [apply keeps_conn_close | intros _ _].
  destruct role.
  - apply keeps_ret. exact Logic.I.
  - eapply keeps_bind; [apply keeps_flash | intros _ _].
    apply keeps_ret. exact Logic.I.
Qed.

Lemma keeps_new_role method form utcnow :
  keeps (holds_in I) (new_role method form utcnow) (fun _ => True).
Proof.
  unfold new_role. destruct method; try (apply keeps_ret; exact Logic.I).
  destruct (negb (truthy (form_get "title" form))
            || negb (truthy (form_get "description" form))).
  - eapply keeps_bind; [apply keeps_flash | intros _ _].
    apply keeps_ret. exact Logic.I.
  - eapply keeps_bind; [apply keeps_get_db_connection | intros _ _].
    eapply keeps_bind;
      [apply keeps_cur_execute; intros v; apply insert_role_keeps | intros role_id _].
    eapply keeps_bind; [apply keeps_conn_commit | intros _ _].
    eapply keeps_bind with
      (Q := Forall (profile_ok (text (form_get "title" form)))).
    + apply keeps_with_random. intros g.
      destruct (generate_dummy_candidates_ok
                  (text (form_get "title" form)) (Some 10) g)
        as (batch & g' & E & _ & Hall).
      rewrite E. exact Hall.
    + intros batch Hbatch.
      eapply keeps_bind.
      * eapply keeps_for_each; [exact Hbatch |]. intros p Hp.
        eapply keeps_bind; [| intros _ _; apply keeps_ret; exact Logic.I].
        apply keeps_cur_execute. intros v. eapply insert_candidate_keeps, Hp.
      * intros _ _.
        eapply keeps_bind; [apply keeps_conn_commit | intros _ _].
        eapply keeps_bind; [apply keeps_conn_close | intros _ _].
        eapply keeps_bind; [apply keeps_flash | intros _ _].
        apply keeps_ret. exact Logic.I.
Qed.

Lemma keeps_dispatch r : keeps (holds_in I) (dispatch r) (fun _ => True).
Proof.
  destruct r; simpl;
    [apply keeps_index | apply keeps_new_role | apply keeps_view_role].
Qed.

Lemma reachable_invariant : I empty_database -> forall d, reachable d -> I d.
Proof.
  intros H0 d Hd. induction Hd as [| d r session g f _ IH]; [exact H0 |].
  destruct (keeps_dispatch r (at_entry d session g f)) as [[H _] _];
    [split; [exact IH | discriminate] | exact H].
Qed.
End Invariants.

Lemma reachable_scores d : reachable d -> all_scores_ok d.
Proof.
  apply reachable_invariant.
  - intros title description date_created v Hv. exact Hv.
  - intros role_title role_id p v Hp Hv. unfold all_scores_ok in *. simpl.
    apply Forall_app. split; [exact Hv |]. constructor; [| constructor].
    unfold candidate_scores_ok. simpl. unfold profile_ok in Hp. tauto.
  - constructor.
Qed.

Lemma reachable_keys d : reachable d -> primary_keys_unique d.
Proof.
  apply reachable_invariant.
  - intros. apply insert_role_keys. assumption.
  - intros. apply insert_candidate_keys. assumption.
  - split; constructor.
Qed.

(* ===================================================================== *)
(** ** The listing query, group by group *)
(* ===================================================================== *)

Section Listing.
Variable cs : list Candidate.t.

Let key (row : Role.t * option Candidate.t) : Z := Role.id (fst row).

Lemma left_join_rows (rs : list Role.t) :
  left_join (fun r c => Role.id r =? Candidate.role_id c) rs cs =
  flat_map (joined_rows cs) rs.
Proof. reflexivity. Qed.

Lemma joined_rows_fst r row : In row (joined_rows cs r) -> fst row = r.
Proof.
  unfold joined_rows.
  destruct (filter (fun c => Role.id r =? Candidate.role_id c) cs) as [| c m].
  - intros [<- | []]. reflexivity.
  - intros Hin. apply in_map_iff in Hin. destruct Hin as (c' & <- & _). reflexivity.
Qed.

Lemma joined_rows_inhabited r : exists row, In row (joined_rows cs r).
Proof.
  unfold joined_rows.
  destruct (filter (fun c => Role.id r =? Candidate.role_id c) cs) as [| c m].
  - exists (r, None). left. reflexivity.
  - exists (r, Some c). left. reflexivity.
Qed.

(** The group of a key keeps all the rows of the role with that key... *)
Lemma group_same r :
  filter (fun row => key row =? Role.id r) (joined_rows cs r) = joined_rows cs r.
Proof.
  apply forallb_filter_id, forallb_forall. intros row Hin.
  unfold key. rewrite (joined_rows_fst r row Hin). apply Z.eqb_refl.
Qed.

(** ... and none of the rows of a role with another key. *)
Lemma group_other r k :
  Role.id r <> k -> filter (fun row => key row =? k) (joined_rows cs r) = [].
Proof.
  intros Hne.
  destruct (filter (fun row => key row =? k) (joined_rows cs r)) as [| row rest] eqn:E;
    [reflexivity |].
  assert (Hin : In row (filter (fun row => key row =? k) (joined_rows cs r)))
    by (rewrite E; left; reflexivity).
  apply filter_In in Hin. destruct Hin as [Hin Hk].
  unfold key in Hk. rewrite (joined_rows_fst r row Hin) in Hk.
  apply Z.eqb_eq in Hk. contradiction.
Qed.

Lemma group_absent rs k :
  ~ In k (map Role.id rs) ->
  filter (fun row => key row =? k) (flat_map (joined_rows cs) rs) = [].
Proof.
  induction rs as [| r rs IH]; simpl; [reflexivity |]. intros Hnot.
  rewrite filter_app, group_other, IH; auto.
Qed.

Lemma group_of_role rs r :
  NoDup (map Role.id rs) -> In r rs ->
  filter (fun row => key row =? Role.id r) (flat_map (joined_rows cs) rs) =
  joined_rows cs r.
Proof.
  induction rs as [| r0 rs IH]; simpl; [tauto |].
  intros Hnodup Hin. inversion Hnodup as [| x l Hfresh Hrest]; subst.
  rewrite filter_app. destruct Hin as [-> | Hin].
  - rewrite group_same, group_absent by exact Hfresh. apply app_nil_r.
  - rewrite group_other, IH by
      (try assumption; intros Heq; apply Hfresh; rewrite Heq; apply in_map, Hin).
    reflexivity.
Qed.

Lemma joined_keys rs k :
  In k (map key (flat_map (joined_rows cs) rs)) <-> In k (map Role.id rs).
Proof.
  rewrite !in_map_iff. split.
  - intros (row & <- & Hin). apply in_flat_map in Hin.
    destruct Hin as (r & Hr & Hrow). exists r.
    unfold key. rewrite (joined_rows_fst r row Hrow). auto.
  - intros (r & <- & Hr). destruct (joined_rows_inhabited r) as (row & Hrow).
    exists row. split.
    + unfold key. rewrite (joined_rows_fst r row Hrow). reflexivity.
    + apply in_flat_map. exists r. auto.
Qed.

(** COUNT(c.id) over the rows of a role counts its candidates. *)
Lemma index_row_joined (d : database) r :
  candidates d = cs -> index_row (joined_rows cs r) = [listing_row d r].
Proof.
  intros Hcs. unfold listing_row, candidates_of, joined_rows. rewrite Hcs.
  rewrite (filter_ext (fun c => Candidate.role_id c =? Role.id r)
                      (fun c => Role.id r =? Candidate.role_id c))
    by (intros c; apply Z.eqb_sym).
  destruct (filter (fun c => Role.id r =? Candidate.role_id c) cs) as [| c m];
    [reflexivity |].
  cbn [map index_row]. f_equal. f_equal. unfold count_non_null. f_equal.
  change (List.length
            (filter (fun row : Role.t * option Candidate.t =>
                       match option_map Candidate.id (snd row) with
                       | Some _ => true
                       | None => false
                       end) (map (fun c0 => (r, Some c0)) (c :: m))) =
          List.length (c :: m)).
  rewrite forallb_filter_id, length_map; [reflexivity |].
  apply forallb_forall. intros row Hin. apply in_map_iff in Hin.
  destruct Hin as (c' & <- & _). reflexivity.
Qed.
End Listing.

Lemma flat_map_map {A B C} (f : B -> list C) (g : A -> B) (l : list A) :
  flat_map f (map g l) = flat_map (fun x => f (g x)) l.
Proof. induction l as [| x l IH]; simpl; [| rewrite IH]; reflexivity. Qed.

Lemma flat_map_singletons {A B} (f : A -> list B) (g : A -> B) (l : list A) :
  (forall x, In x l -> f x = [g x]) -> flat_map f l = map g l.
Proof.
  induction l as [| x l IH]; simpl; intros H; [reflexivity |].
  rewrite (H x), IH by auto. reflexivity.
Qed.

(** Before ORDER BY, the listing has the row of each role, once. *)
Lemma grouped_listing (d : database) :
  NoDup (map Role.id (roles d)) ->
  Permutation
    (flat_map index_row
       (group_by (fun row => Role.id (fst row))
          (left_join (fun r c => Role.id r =? Candidate.role_id c)
             (roles d) (candidates d))))
    (map (listing_row d) (roles d)).
Proof.
  intros Hnodup. rewrite left_join_rows. unfold group_by. rewrite flat_map_map.
  set (joined := flat_map (joined_rows (candidates d)) (roles d)).
  set (per_key := fun k : Z =>
         index_row (filter (fun row : Role.t * option Candidate.t =>
                              Role.id (fst row) =? k) joined)).
  assert (Hkeys : Permutation
            (nodup Z.eq_dec (map (fun row : Role.t * option Candidate.t =>
                                    Role.id (fst row)) joined))
            (map Role.id (roles d))).
  { apply NoDup_Permutation; [apply NoDup_nodup | exact Hnodup |].
    intros k. rewrite nodup_In. apply joined_keys. }
  eapply perm_trans; [exact (Permutation_flat_map per_key Hkeys) |].
  rewrite flat_map_map. rewrite (flat_map_singletons _ (listing_row d)).
  - apply Permutation_refl.
  - intros r Hr. unfold per_key, joined.
    rewrite (group_of_role (candidates d) (roles d) r Hnodup Hr).
    apply index_row_joined. reflexivity.
Qed.

Lemma Sorted_weaken {A} (R R' : A -> A -> Prop) (l : list A) :
  (forall x y, R x y -> R' x y) -> Sorted R l -> Sorted R' l.
Proof.
  intros HR. induction 1 as [| x l _ IH Hhd]; constructor; [exact IH |].
  destruct Hhd; constructor. apply HR. assumption.
Qed.

Lemma insert_role_rows title description date_created d :
  let role_id := fst (insert_role title description date_created d) in
  ~ In role_id (map Role.id (roles d)) /\
  roles (snd (insert_role title description date_created d)) =
    roles d ++ [Role.make role_id title description date_created] /\
  candidates (snd (insert_role title description date_created d)) = candidates d.
Proof. simpl. split; [apply next_rowid_fresh | split; reflexivity]. Qed.

(** What an accepted submission stores and answers, without storage
    failure. *)
Lemma new_role_post_stores form utcnow d session g t ds :
  form_get "title" form = Some t ->
  form_get "description" form = Some ds ->
  t <> "" -> ds <> "" ->
  exists role_id batch rows g',
    new_role POST form utcnow (at_entry d session g None) =
      (Ok (Redirect (url_for (ep_view_role role_id))),
       mk_world (insert_candidates role_id batch (snd (insert_role t ds utcnow d)))
         None
         (session ++ [("success", "Role created and candidates generated successfully!")])
         g' None) /\
    ~ In role_id (map Role.id (roles d)) /\
    roles (insert_candidates role_id batch (snd (insert_role t ds utcnow d))) =
      roles d ++ [Role.make role_id t ds utcnow] /\
    candidates (insert_candidates role_id batch (snd (insert_role t ds utcnow d))) =
      candidates d ++ rows /\
    List.length rows = 10%nat /\
    Forall (fun c => Candidate.role_id c = role_id) rows.
Proof.
  intros Ht Hd Hne1 Hne2.
  destruct (generate_dummy_candidates_ok t (Some 10) g)
    as (batch & g' & Hgen & Hlen & _).
  pose proof (new_role_post_ok form utcnow d session g t ds batch g'
                Ht Hd Hne1 Hne2 Hgen) as Hrun.
  cbv zeta in Hrun.
  destruct (insert_role_rows t ds utcnow d) as (Hfresh & Hroles & Hcands).
  set (role_id := fst (insert_role t ds utcnow d)) in *.
  destruct (insert_candidates_rows role_id batch (snd (insert_role t ds utcnow d)))
    as (rows & Hdb & Hrows & Hrid & _).
  exists role_id, batch, rows, g'. split; [exact Hrun |].
  rewrite Hdb. cbn [roles candidates].
  rewrite Hroles, Hcands. repeat split; try assumption.
  rewrite Hrows, Hlen. reflexivity.
Qed.

(* ===================================================================== *)
(** ** The handlers *)
(* ===================================================================== *)

(** C1: a POST to /role/new whose [title] and [description] are both
    non-empty persists exactly one new role row and exactly 10 candidate
    rows, each with [role_id] equal to the id of the new role, and answers
    with a redirect to /role/{id} for that id. *)
Theorem new_role_creates_role_and_ten_candidates form utcnow d session g t ds :
  form_get "title" form = Some t ->
  form_get "description" form = Some ds ->
  t <> "" -> ds <> "" ->
  exists role_id rows w',
    new_role POST form utcnow (at_entry d session g None) =
      (Ok (Redirect ("/role/" ++ str_of_Z role_id)), w') /\
    ~ In role_id (map Role.id (roles d)) /\
    roles (durable w') = roles d ++ [Role.make role_id t ds utcnow] /\
    candidates (durable w') = candidates d ++ rows /\
    List.length rows = 10%nat /\
    Forall (fun c => Candidate.role_id c = role_id) rows.
Proof.
  intros Ht Hd Hne1 Hne2.
  destruct (new_role_post_stores form utcnow d session g t ds Ht Hd Hne1 Hne2)
    as (role_id & batch & rows & g' & Hrun & Hfresh & Hroles & Hcands & Hlen & Hrid).
  exists role_id, rows. eexists. split; [exact Hrun |].
  cbn [durable]. auto.
Qed.

Lemma new_role_creates_role_and_ten_candidates_witness :
  exists role_id rows w',
    new_role POST [("title", "Backend Engineer"); ("description", "Own our API")]
      "2024-01-01T00:00:00" (at_entry empty_database [] [3; 14; 15; 92; 65]%nat None) =
      (Ok (Redirect ("/role/" ++ str_of_Z role_id)), w') /\
    ~ In role_id (map Role.id (roles empty_database)) /\
    roles (durable w') =
      roles empty_database ++
      [Role.make role_id "Backend Engineer" "Own our API" "2024-01-01T00:00:00"] /\
    candidates (durable w') = candidates empty_database ++ rows /\
    List.length rows = 10%nat /\
    Forall (fun c => Candidate.role_id c = role_id) rows.
Proof.
  apply (new_role_creates_role_and_ten_candidates
           [("title", "Backend Engineer"); ("description", "Own our API")]
           "2024-01-01T00:00:00" empty_database [] [3; 14; 15; 92; 65]%nat
           "Backend Engineer" "Own our API");
    [reflexivity | reflexivity | discriminate | discriminate].
Defined.

(** C2, as the specification states it, fails: when the storage raises
    after the first commit (here at the eighth storage call), the file holds
    the new role and none of its candidates. *)
Lemma role_creation_not_atomic :
  ~ persists_all_or_nothing empty_database
      (durable (snd (new_role POST
                       [("title", "Backend Engineer"); ("description", "Own our API")]
                       "2024-01-01T00:00:00"
                       (at_entry empty_database [] [] (Some 7%nat))))).
Proof.
  intros [Hnone | (r & rows & _ & Hcands & Hlen & _)].
  - vm_compute in Hnone. discriminate Hnone.
  - vm_compute in Hcands. subst rows. discriminate Hlen.
Qed.

(** C2, amended: role creation commits twice. After a create-role request
    with non-empty fields the file is unchanged (the storage raised before
    the first commit was through), or holds the new role and none of its
    candidates (it raised between the two commits), or holds the new role
    and its whole batch of 10 candidates; it never holds a part of the
    batch. [f] counts the storage calls that succeed before one raises. *)
Theorem role_creation_commits_twice form utcnow d session g f t ds :
  form_get "title" form = Some t ->
  form_get "description" form = Some ds ->
  t <> "" -> ds <> "" ->
  exists role_id rows,
    let role := Role.make role_id t ds utcnow in
    let d' := durable (snd (new_role POST form utcnow (at_entry d session g f))) in
    List.length rows = 10%nat /\
    Forall (fun c => Candidate.role_id c = role_id) rows /\
    match f with
    | Some k =>
        if (k <? 3)%nat then d' = d
        else if (k <? 14)%nat
             then roles d' = roles d ++ [role] /\ candidates d' = candidates d
             else roles d' = roles d ++ [role] /\ candidates d' = candidates d ++ rows
    | None => roles d' = roles d ++ [role] /\ candidates d' = candidates d ++ rows
    end.
Proof.
  intros Ht Hd Hne1 Hne2.
  destruct (generate_dummy_candidates_ok t (Some 10) g)
    as (batch & g' & Hgen & Hlen & _).
  destruct (insert_role_rows t ds utcnow d) as (_ & Hroles & Hcands).
  set (role_id := fst (insert_role t ds utcnow d)) in *.
  destruct (insert_candidates_rows role_id batch (snd (insert_role t ds utcnow d)))
    as (rows & Hdb & Hrows & Hrid & _).
  assert (Hfull :
            roles (insert_candidates role_id batch (snd (insert_role t ds utcnow d))) =
              roles d ++ [Role.make role_id t ds utcnow] /\
            candidates (insert_candidates role_id batch (snd (insert_role t ds utcnow d))) =
              candidates d ++ rows).
  { rewrite Hdb. cbn [roles candidates]. rewrite Hroles, Hcands. split; reflexivity. }
  exists role_id, rows. cbv zeta.
  split; [rewrite Hrows, Hlen; reflexivity |]. split; [exact Hrid |].
  destruct f as [k |].
  - pose proof (new_role_post_faulty form utcnow d session g k t ds batch g'
                  Ht Hd Hne1 Hne2 Hgen Hlen) as Hrun.
    cbv zeta in Hrun. fold role_id in Hrun.
    apply (f_equal snd) in Hrun.
    destruct (k <? 3)%nat; [exact Hrun |].
    destruct (k <? 14)%nat; cbn [snd] in Hrun; rewrite Hrun.
    + split; assumption.
    + exact Hfull.
  - rewrite (new_role_post_ok form utcnow d session g t ds batch g'
               Ht Hd Hne1 Hne2 Hgen).
    exact Hfull.
Qed.

Lemma role_creation_commits_twice_witness :
  exists role_id rows,
    let role := Role.make role_id "Backend Engineer" "Own our API" "2024-01-01T00:00:00" in
    let d' :=
      durable (snd (new_role POST
                      [("title", "Backend Engineer"); ("description", "Own our API")]
                      "2024-01-01T00:00:00"
                      (at_entry empty_database [] [] (Some 7%nat)))) in
    List.length rows = 10%nat /\
    Forall (fun c => Candidate.role_id c = role_id) rows /\
    roles d' = roles empty_database ++ [role] /\
    candidates d' = candidates empty_database.
Proof.
  apply (role_creation_commits_twice
           [("title", "Backend Engineer"); ("description", "Own our API")]
           "2024-01-01T00:00:00" empty_database [] [] (Some 7%nat)
           "Backend Engineer" "Own our API");
    [reflexivity | reflexivity | discriminate | discriminate].
Defined.

(** C3: a POST to /role/new whose [title] or [description] is missing or
    the empty string persists no role row and no candidate row (the world
    changes in its flashed messages only), flashes the validation message,
    and sends the client back to the creation form: the answer is a redirect
    to /role/new, which a GET renders as the form. *)
Theorem new_role_rejects_missing_fields form utcnow w :
  form_get "title" form = None \/ form_get "title" form = Some "" \/
  form_get "description" form = None \/ form_get "description" form = Some "" ->
  new_role POST form utcnow w =
    (Ok (Redirect (url_for ep_new_role)),
     set_flashes
       (flashes w ++ [("danger", "Please provide both a title and a job description.")])
       w) /\
  durable (snd (new_role POST form utcnow w)) = durable w /\
  conn (snd (new_role POST form utcnow w)) = conn w /\
  url_for ep_new_role = "/role/new" /\
  forall form' utcnow' w',
    new_role GET form' utcnow' w' = (Ok (Render "new_role.html" ctx_new_role), w').
Proof.
  intros Hmissing.
  assert (Hrun : new_role POST form utcnow w =
                 (Ok (Redirect "/role/new"),
                  set_flashes
                    (flashes w ++
                     [("danger", "Please provide both a title and a job description.")])
                    w)).
  { apply new_role_rejects.
    destruct Hmissing as [H | [H | [H | H]]]; rewrite H; simpl;
      try reflexivity; apply orb_true_r. }
  rewrite Hrun. repeat split.
Qed.

Lemma new_role_rejects_missing_fields_witness :
  new_role POST [("title", ""); ("description", "Build things")]
    "2024-01-01T00:00:00" (at_entry empty_database [] [] None) =
    (Ok (Redirect "/role/new"),
     at_entry empty_database
       [("danger", "Please provide both a title and a job description.")] [] None).
Proof.
  apply (new_role_rejects_missing_fields
           [("title", ""); ("description", "Build things")]
           "2024-01-01T00:00:00" (at_entry empty_database [] [] None)).
  right. left. reflexivity.
Defined.

(** The SELECT statements of [view_role] leave the file alone, whatever the
    storage does. *)
Lemma view_role_reads_only role_id d session g f :
  durable (snd (view_role role_id (at_entry d session g f))) = d.
Proof.
  destruct (keeps_view_role (fun v => v = d) role_id (at_entry d session g f))
    as [[H _] _]; [split; [reflexivity | discriminate] | exact H].
Qed.

(** C4 asks, for every GET of /role/{id} with no role row of that id, for
    the not-found flash and the redirect to /. The handler does not do so
    for an id beyond 64 bits, which the route passes: binding it to the
    first SELECT raises OverflowError, so nothing is flashed, nothing is
    answered, and the connection stays open. Here at id 2^63, on any file. *)
Theorem view_role_raises_beyond_64_bits d session g :
  view_role 9223372036854775808 (at_entry d session g None) =
  (Raised OverflowError, mk_world d (Some d) session g None).
Proof.
  unfold view_role, at_entry.
  rewrite run_get_db_connection. cbn [call_fails after_call].
  rewrite run_conn_query_int. cbn [call_fails after_call]. reflexivity.
Qed.

(** X18: a GET of /role/{id} for an id of the 64-bit range that no role row
    has flashes the not-found message and answers with a redirect to /; the
    database file is as before the request, also when the storage fails. *)
Theorem view_role_unknown_id_in_range_redirects role_id d session g :
  0 <= role_id < 9223372036854775808 ->
  (forall r, In r (roles d) -> Role.id r <> role_id) ->
  view_role role_id (at_entry d session g None) =
    (Ok (Redirect "/"),
     at_entry d (session ++ [("danger", "Role not found.")]) g None) /\
  forall f, durable (snd (view_role role_id (at_entry d session g f))) = d.
Proof.
  intros Hrange Habsent. split; [| intros f; apply view_role_reads_only].
  assert (Hnone : select_role role_id d = None).
  { unfold select_role. destruct (find _ (roles d)) as [r |] eqn:E; [| reflexivity].
    apply find_some in E. destruct E as [Hin Heq]. apply Z.eqb_eq in Heq.
    elim (Habsent r Hin Heq). }
  assert (Hfits : sqlite_integer role_id = true).
  { unfold sqlite_integer. apply andb_true_intro. split;
      [apply Z.leb_le | apply Z.ltb_lt]; lia. }
  unfold view_role, at_entry.
  rewrite run_get_db_connection. cbn [call_fails after_call].
  rewrite run_conn_query_int, Hfits. cbn [call_fails after_call].
  rewrite run_conn_query_int, Hfits. cbn [call_fails after_call].
  rewrite Hnone. reflexivity.
Qed.

Lemma view_role_unknown_id_in_range_redirects_witness :
  0 <= 7 < 9223372036854775808 /\
  (forall r, In r (roles two_roles) -> Role.id r <> 7) /\
  view_role 7 (at_entry two_roles [] [] None) =
    (Ok (Redirect "/"),
     at_entry two_roles ([] ++ [("danger", "Role not found.")]) [] None) /\
  forall f, durable (snd (view_role 7 (at_entry two_roles [] [] f))) = two_roles.
Proof.
  assert (Hrange : 0 <= 7 < 9223372036854775808) by lia.
  assert (Habsent : forall r, In r (roles two_roles) -> Role.id r <> 7).
  { intros r [<- | [<- | []]]; discriminate. }
  split; [exact Hrange |]. split; [exact Habsent |].
  exact (view_role_unknown_id_in_range_redirects 7 two_roles [] [] Hrange Habsent).
Defined.

(** C5: for every role id, the candidates handed to the role-detail view
    are the candidate rows of that role, sorted by [fit_score] from high to
    low: each row's [fit_score] is at least that of the next row. Rows with
    equal [fit_score] are not constrained further. The view gets this list
    whenever the handler renders it: for an id that SQLite can bind and that
    a role row has. *)
Theorem view_role_candidates_by_fit_score role_id d :
  let listed := select_candidates role_id d in
  Sorted (fun x y => Candidate.fit_score x >= Candidate.fit_score y) listed /\
  Permutation listed (candidates_of role_id d) /\
  forall session g,
    fst (view_role role_id (at_entry d session g None)) =
    if sqlite_integer role_id
    then match select_role role_id d with
         | Some r => Ok (Render "role.html" (ctx_role r listed))
         | None => Ok (Redirect "/")
         end
    else Raised OverflowError.
Proof.
  cbv zeta. split; [| split].
  - eapply Sorted_weaken; [| apply order_by_sorted, fit_score_desc_total].
    intros x y H. cbv beta in H. apply Z.leb_le in H. lia.
  - apply order_by_permutation.
  - intros session g. unfold view_role, at_entry.
    rewrite run_get_db_connection. cbn [call_fails after_call].
    rewrite run_conn_query_int. cbn [call_fails after_call].
    destruct (sqlite_integer role_id) eqn:Hfits; [| reflexivity].
    rewrite run_conn_query_int, Hfits. cbn [call_fails after_call].
    destruct (select_role role_id d); reflexivity.
Qed.

(** C6: when the ids of the role rows are distinct (the PRIMARY KEY of
    [roles]), the listing of the index handler has one row per role, roles
    without candidates included, each with the number of candidate rows whose
    [role_id] is that role's id, and is sorted by [date_created] from new to
    old. *)
Theorem index_lists_every_role_newest_first d session g :
  NoDup (map Role.id (roles d)) ->
  exists listing,
    index (at_entry d session g None) =
      (Ok (Render "index.html" (ctx_index listing)), at_entry d session g None) /\
    Permutation listing
      (map (fun r =>
              IndexRow.make (Role.id r) (Role.title r) (Role.date_created r)
                (Z.of_nat
                   (List.length
                      (filter (fun c => Candidate.role_id c =? Role.id r)
                              (candidates d)))))
           (roles d)) /\
    Sorted (fun x y =>
              String.leb (IndexRow.date_created y) (IndexRow.date_created x) = true)
           listing.
Proof.
  intros Hkeys. exists (select_roles_with_counts d). split; [| split].
  - unfold index, at_entry.
    rewrite run_get_db_connection. cbn [call_fails after_call].
    rewrite run_conn_query. cbn [call_fails after_call]. reflexivity.
  - unfold select_roles_with_counts.
    eapply perm_trans; [apply order_by_permutation | apply grouped_listing, Hkeys].
  - apply (order_by_sorted _ date_created_desc_total).
Qed.

Lemma index_lists_every_role_newest_first_witness :
  NoDup (map Role.id (roles two_roles)) /\
  exists listing,
    index (at_entry two_roles [] [] None) =
      (Ok (Render "index.html" (ctx_index listing)), at_entry two_roles [] [] None) /\
    Permutation listing
      [IndexRow.make 1 "Backend Engineer" "2024-01-01T00:00:00" 2;
       IndexRow.make 2 "Designer" "2024-03-05T10:30:00.120000" 0] /\
    Sorted (fun x y =>
              String.leb (IndexRow.date_created y) (IndexRow.date_created x) = true)
           listing.
Proof.
  assert (Hkeys : NoDup (map Role.id (roles two_roles))).
  { simpl. constructor; [intros [H | []]; discriminate H |].
    constructor; [intros [] | constructor]. }
  split; [exact Hkeys |].
  exact (index_lists_every_role_newest_first two_roles [] [] Hkeys).
Defined.

(* ===================================================================== *)
(** ** The generator *)
(* ===================================================================== *)

(** C7: in every database file the application produces from a new file,
    whatever the requests, the random draws and the storage failures, each
    candidate row of each role has its [fit_score], [culture_score] and
    [experience_score] in the closed range 60..100. *)
Theorem created_candidates_scores_in_range d r c :
  reachable d ->
  In r (roles d) -> In c (candidates d) -> Candidate.role_id c = Role.id r ->
  60 <= Candidate.fit_score c <= 100 /\
  60 <= Candidate.culture_score c <= 100 /\
  60 <= Candidate.experience_score c <= 100.
Proof.
  intros Hreach _ Hc _. apply reachable_scores in Hreach.
  unfold all_scores_ok in Hreach. rewrite Forall_forall in Hreach.
  exact (Hreach c Hc).
Qed.

(** C8: every candidate the generator produces for [role_title] has as
    [current_title] one of the five templates with [role_title] substituted,
    hence a string that contains [role_title], and as [linkedin] the prefix
    https://linkedin.com/in/ followed by the sampled first name lowercased
    and the sampled last name lowercased, nothing between them. *)
Theorem generated_title_and_linkedin role_title num_candidates g batch g' c :
  generate_dummy_candidates role_title num_candidates g = (Ok batch, g') ->
  In c batch ->
  (Profile.current_title c = ("Senior " ++ role_title)%string \/
   Profile.current_title c = (role_title ++ " II")%string \/
   Profile.current_title c = ("Lead " ++ role_title)%string \/
   Profile.current_title c = (role_title ++ " Specialist")%string \/
   Profile.current_title c = (role_title ++ " Consultant")%string) /\
  contains role_title (Profile.current_title c) = true /\
  exists first_name last_name,
    In first_name first_names /\ In last_name last_names /\
    Profile.name c = (first_name ++ " " ++ last_name)%string /\
    Profile.linkedin c =
      ("https://linkedin.com/in/" ++ lower first_name ++ lower last_name)%string.
Proof.
  intros Hgen Hin.
  destruct (generate_dummy_candidates_ok role_title num_candidates g)
    as (batch0 & g0 & E & _ & Hall).
  rewrite Hgen in E. injection E as <- _.
  rewrite Forall_forall in Hall. destruct (Hall c Hin) as (Hnames & Htitle & _).
  assert (Hfive :
            Profile.current_title c = ("Senior " ++ role_title)%string \/
            Profile.current_title c = (role_title ++ " II")%string \/
            Profile.current_title c = ("Lead " ++ role_title)%string \/
            Profile.current_title c = (role_title ++ " Specialist")%string \/
            Profile.current_title c = (role_title ++ " Consultant")%string).
  { unfold title_variants in Htitle. simpl in Htitle.
    destruct Htitle as [H | [H | [H | [H | [H | []]]]]]; rewrite <- H; tauto. }
  split; [exact Hfive |]. split.
  - destruct Hfive as [H | [H | [H | [H | H]]]]; rewrite H;
      first [apply contains_prefixed | apply contains_suffixed].
  - destruct Hnames as (first_name & last_name & H1 & H2 & H3 & H4).
    exists first_name, last_name. auto.
Qed.

(** C9: the generator is total: for every [role_title] and every count that
    is not negative it returns, without raising, a list of exactly that many
    records; an omitted count stands for 10. *)
Theorem generate_dummy_candidates_total role_title count g :
  0 <= count ->
  (exists batch g',
      generate_dummy_candidates role_title (Some count) g = (Ok batch, g') /\
      Z.of_nat (List.length batch) = count) /\
  generate_dummy_candidates role_title None g =
    generate_dummy_candidates role_title (Some 10) g.
Proof.
  intros Hcount. split; [| reflexivity].
  destruct (generate_dummy_candidates_ok role_title (Some count) g)
    as (batch & g' & E & Hlen & _).
  exists batch, g'. split; [exact E | lia].
Qed.

Lemma generate_dummy_candidates_total_witness :
  0 <= 3 /\
  (exists batch g',
      generate_dummy_candidates "Backend Engineer" (Some 3) [271; 828; 18]%nat =
        (Ok batch, g') /\
      Z.of_nat (List.length batch) = 3) /\
  generate_dummy_candidates "Backend Engineer" None [271; 828; 18]%nat =
    generate_dummy_candidates "Backend Engineer" (Some 10) [271; 828; 18]%nat.
Proof.
  split; [lia |].
  apply (generate_dummy_candidates_total "Backend Engineer" 3 [271; 828; 18]%nat).
  lia.
Defined.

Lemma created_candidates_scores_in_range_witness :
  let d :=
    durable (snd (dispatch
                    (req_new_role POST
                       [("title", "Backend Engineer"); ("description", "Own our API")]
                       "2024-01-01T00:00:00")
                    (at_entry empty_database []
                       [3; 14; 15; 92; 65; 35; 89; 79; 32]%nat None))) in
  let r := Role.make 1 "Backend Engineer" "Own our API" "2024-01-01T00:00:00" in
  let c := Candidate.make 1 1 "Noah Shah" "Senior Backend Engineer" "InnovateX"
             "San Francisco, CA" "https://linkedin.com/in/noahshah"
             "Relevant experience in similar role" 67 98 92 in
  reachable d /\ In r (roles d) /\ In c (candidates d) /\
  Candidate.role_id c = Role.id r /\
  60 <= Candidate.fit_score c <= 100 /\
  60 <= Candidate.culture_score c <= 100 /\
  60 <= Candidate.experience_score c <= 100.
Proof.
  intros d r c.
  assert (Hreach : reachable d) by (apply reach_serve, reach_new).
  assert (Hr : In r (roles d)) by (vm_compute; left; reflexivity).
  assert (Hc : In c (candidates d)) by (vm_compute; left; reflexivity).
  split; [exact Hreach |]. split; [exact Hr |]. split; [exact Hc |].
  split; [reflexivity |].
  exact (created_candidates_scores_in_range d r c Hreach Hr Hc eq_refl).
Defined.

Lemma generated_title_and_linkedin_witness :
  let c := Profile.make "Noah Shah" "Senior Backend Engineer" "InnovateX"
             "San Francisco, CA" "https://linkedin.com/in/noahshah"
             "Relevant experience in similar role" 67 98 92 in
  generate_dummy_candidates "Backend Engineer" (Some 1)
    [3; 14; 15; 92; 65; 35; 89; 79; 32]%nat = (Ok [c], []) /\
  In c [c] /\
  contains "Backend Engineer" (Profile.current_title c) = true /\
  exists first_name last_name,
    In first_name first_names /\ In last_name last_names /\
    Profile.name c = (first_name ++ " " ++ last_name)%string /\
    Profile.linkedin c =
      ("https://linkedin.com/in/" ++ lower first_name ++ lower last_name)%string.
Proof.
  intros c.
  assert (Hgen : generate_dummy_candidates "Backend Engineer" (Some 1)
                   [3; 14; 15; 92; 65; 35; 89; 79; 32]%nat = (Ok [c], []))
    by (vm_compute; reflexivity).
  assert (Hin : In c [c]) by (left; reflexivity).
  split; [exact Hgen |]. split; [exact Hin |].
  apply (generated_title_and_linkedin "Backend Engineer" (Some 1)
           [3; 14; 15; 92; 65; 35; 89; 79; 32]%nat [c] [] c Hgen Hin).
Defined.

(* ===================================================================== *)
(** ** Validation *)
(* ===================================================================== *)

(** C10: the creation form is rejected exactly when [title] or
    [description] is absent or the empty string; every other submission
    stores the role with both fields as they were sent. A field made of
    whitespace only is not empty, so it passes and is stored untrimmed. *)
Theorem validation_checks_presence_only form utcnow d session g :
  let title := form_get "title" form in
  let description := form_get "description" form in
  let out := new_role POST form utcnow (at_entry d session g None) in
  (if absent_or_empty title || absent_or_empty description
   then fst out = Ok (Redirect "/role/new") /\ durable (snd out) = d
   else exists role_id,
       fst out = Ok (Redirect ("/role/" ++ str_of_Z role_id)) /\
       roles (durable (snd out)) =
         roles d ++ [Role.make role_id (text title) (text description) utcnow]) /\
  (forall s, whitespace_only s = true -> absent_or_empty (Some s) = false).
Proof.
  cbv zeta. split; [| exact whitespace_only_not_empty].
  destruct (absent_or_empty (form_get "title" form)
            || absent_or_empty (form_get "description" form)) eqn:Hcheck.
  - rewrite (new_role_rejects form utcnow _ Hcheck). split; reflexivity.
  - apply orb_false_elim in Hcheck. destruct Hcheck as [Ht Hd].
    destruct (form_get "title" form) as [t |] eqn:Etitle; [| discriminate Ht].
    destruct (form_get "description" form) as [ds |] eqn:Edesc; [| discriminate Hd].
    simpl in Ht, Hd. apply String.eqb_neq in Ht, Hd.
    destruct (new_role_post_stores form utcnow d session g t ds Etitle Edesc Ht Hd)
      as (role_id & batch & rows & g' & Hrun & _ & Hroles & _).
    exists role_id. rewrite Hrun. split; [reflexivity | exact Hroles].
Qed.

Lemma validation_checks_presence_only_witness :
  whitespace_only " " = true /\
  exists role_id,
    fst (new_role POST [("title", " "); ("description", "  ")]
           "2024-01-01T00:00:00" (at_entry two_roles [] [] None)) =
      Ok (Redirect ("/role/" ++ str_of_Z role_id)) /\
    roles (durable (snd (new_role POST [("title", " "); ("description", "  ")]
                           "2024-01-01T00:00:00" (at_entry two_roles [] [] None)))) =
      roles two_roles ++ [Role.make role_id " " "  " "2024-01-01T00:00:00"].
Proof.
  split; [reflexivity |].
  exact (proj1 (validation_checks_presence_only
                  [("title", " "); ("description", "  ")]
                  "2024-01-01T00:00:00" two_roles [] [])).
Defined.

(* ===================================================================== *)
(** ** Runs on the example file *)
(* ===================================================================== *)

Example lower_pool_name : lower "Aaliyah" = "aaliyah".
Proof. reflexivity. Qed.

Example two_roles_candidates_of_first :
  map Candidate.fit_score (select_candidates 1 two_roles) = [93; 71].
Proof. reflexivity. Qed.

Example two_roles_listing :
  select_roles_with_counts two_roles =
  [IndexRow.make 2 "Designer" "2024-03-05T10:30:00.120000" 0;
   IndexRow.make 1 "Backend Engineer" "2024-01-01T00:00:00" 2].
Proof. vm_compute. reflexivity. Qed.

Example two_roles_next_role :
  fst (new_role POST [("title", "Analyst"); ("description", "Count things")]
         "2024-04-01T08:00:00" (at_entry two_roles [] [] None)) =
  Ok (Redirect "/role/3").
Proof. vm_compute. reflexivity. Qed.

Example storage_down_at_connect :
  new_role POST [("title", "Analyst"); ("description", "Count things")]
    "2024-04-01T08:00:00" (at_entry two_roles [] [] (Some 0%nat)) =
  (Raised OperationalError, at_entry two_roles [] [] (Some 0%nat)).
Proof. vm_compute. reflexivity. Qed.

(* ===================================================================== *)
(** ** Every run of the handlers, storage failures included *)
(* ===================================================================== *)

(** [index()] makes two storage calls. *)
Lemma index_run d session g f :
  index (at_entry d session g f) =
  match f with
  | Some O => (Raised OperationalError, at_entry d session g f)
  | Some (S O) => (Raised OperationalError, mk_world d (Some d) session g (Some O))
  | _ => (Ok (Render "index.html" (ctx_index (select_roles_with_counts d))),
          mk_world d None session g (after_calls 2 f))
  end.
Proof.
  unfold index, at_entry. rewrite run_get_db_connection.
  destruct f as [[| k] |]; cbn [call_fails after_call Nat.pred]; try reflexivity;
    rewrite run_conn_query; try reflexivity.
  destruct k as [| k]; cbn [call_fails after_call after_calls Nat.pred Nat.sub];
    [reflexivity |]. rewrite Nat.sub_0_r. reflexivity.
Qed.

(** [view_role(role_id)] makes three storage calls; the first SELECT binds
    [role_id] once the storage has taken the call. *)
Lemma view_role_run role_id d session g f :
  view_role role_id (at_entry d session g f) =
  match f with
  | Some O => (Raised OperationalError, at_entry d session g f)
  | Some (S O) => (Raised OperationalError, mk_world d (Some d) session g (Some O))
  | _ =>
      if sqlite_integer role_id then
        match f with
        | Some (S (S O)) =>
            (Raised OperationalError, mk_world d (Some d) session g (Some O))
        | _ =>
            match select_role role_id d with
            | Some r =>
                (Ok (Render "role.html" (ctx_role r (select_candidates role_id d))),
                 mk_world d None session g (after_calls 3 f))
            | None =>
                (Ok (Redirect "/"),
                 mk_world d None (session ++ [("danger", "Role not found.")]) g
                   (after_calls 3 f))
            end
        end
      else (Raised OverflowError, mk_world d (Some d) session g (after_calls 2 f))
  end.
Proof.
  unfold view_role, at_entry. rewrite run_get_db_connection.
  destruct f as [[| k] |]; cbn [call_fails after_call Nat.pred]; try reflexivity.
  - rewrite run_conn_query_int.
    destruct k as [| k]; cbn [call_fails after_call after_calls Nat.pred Nat.sub];
      [reflexivity |].
    rewrite Nat.sub_0_r.
    destruct (sqlite_integer role_id) eqn:Hfits; [| reflexivity].
    rewrite run_conn_query_int, Hfits.
    destruct k as [| k]; cbn [call_fails after_call after_calls Nat.pred Nat.sub];
      [reflexivity |].
    rewrite ?Nat.sub_0_r. destruct (select_role role_id d); reflexivity.
  - rewrite run_conn_query_int. cbn [call_fails after_call after_calls].
    destruct (sqlite_integer role_id) eqn:Hfits; [| reflexivity].
    rewrite run_conn_query_int, Hfits. cbn [call_fails after_call].
    destruct (select_role role_id d); reflexivity.
Qed.

(** An accepted POST makes fourteen storage calls: it raises when one of
    them does, and returns when all of them succeed. *)
Lemma new_role_post_world form utcnow d session g k t ds batch g' :
  form_get "title" form = Some t -> form_get "description" form = Some ds ->
  t <> "" -> ds <> "" ->
  generate_dummy_candidates t (Some 10) g = (Ok batch, g') ->
  List.length batch = 10%nat ->
  let role_id := fst (insert_role t ds utcnow d) in
  let out := new_role POST form utcnow (at_entry d session g (Some k)) in
  ((k < 14)%nat /\
   exists c g1,
     out = (Raised OperationalError,
            mk_world (if (k <? 3)%nat then d else snd (insert_role t ds utcnow d))
              c session g1 (Some O)) /\
     (c = None -> k = O)) \/
  ((14 <= k)%nat /\
   out = (Ok (Redirect (url_for (ep_view_role role_id))),
          mk_world (insert_candidates role_id batch (snd (insert_role t ds utcnow d)))
            None
            (session ++ [("success", "Role created and candidates generated successfully!")])
            g' (Some (k - 14)%nat))).
Proof.
  intros Ht Hd Hne1 Hne2 Hgen Hlen role_id out. subst out.
  rewrite (new_role_accepts form utcnow t ds _ Ht Hd Hne1 Hne2). unfold at_entry.
  rewrite run_get_db_connection.
  destruct k as [| k]; cbn [call_fails after_call Nat.pred].
  { left. split; [lia |]. exists None, g. split; reflexivity. }
  rewrite run_cur_execute.
  destruct k as [| k]; cbn [call_fails after_call Nat.pred].
  { left. split; [lia |]. exists (Some d), g. split; [reflexivity | discriminate]. }
  rewrite run_conn_commit.
  destruct k as [| k]; cbn [call_fails after_call Nat.pred].
  { left. split; [lia |]. eexists _, g. split; [reflexivity | discriminate]. }
  rewrite (run_with_random _ _ _ _ _ _ _ _ _ Hgen).
  rewrite run_insert_loop_then, Hlen. cbn [calls_succeed after_calls].
  change (S (S (S k)) <? 3)%nat with false. cbv iota.
  destruct (Nat.leb_spec 10 k) as [Hk | Hk].
  - rewrite run_conn_commit.
    destruct (k - 10)%nat as [| j] eqn:Hj; cbn [call_fails after_call Nat.pred].
    + left. split; [lia |]. eexists _, g'. split; [reflexivity | discriminate].
    + right. split; [lia |].
      replace (S (S (S k)) - 14)%nat with j by lia. reflexivity.
  - left. split; [lia |]. eexists _, g'. split; [reflexivity | discriminate].
Qed.

(** Whatever the request and the storage do, the file moves by one of the
    three transitions. *)
Lemma dispatch_transition r d session g f :
  transition d (durable (snd (dispatch r (at_entry d session g f)))).
Proof.
  destruct r as [| method form utcnow | role_id]; cbn [dispatch].
  - destruct (keeps_index (fun v => v = d) (at_entry d session g f))
      as [[H _] _]; [split; [reflexivity | discriminate] |].
    rewrite H. constructor.
  - destruct method; try (cbn; constructor).
    destruct (absent_or_empty (form_get "title" form)
              || absent_or_empty (form_get "description" form)) eqn:Hcheck.
    + rewrite (new_role_rejects form utcnow _ Hcheck). cbn. constructor.
    + apply orb_false_elim in Hcheck. destruct Hcheck as [Ht Hd].
      destruct (form_get "title" form) as [t |] eqn:Etitle; [| discriminate Ht].
      destruct (form_get "description" form) as [ds |] eqn:Edesc; [| discriminate Hd].
      simpl in Ht, Hd. apply String.eqb_neq in Ht, Hd.
      destruct (generate_dummy_candidates_ok t (Some 10) g)
        as (batch & g' & Hgen & Hlen & Hall).
      change (Z.to_nat 10) with 10%nat in Hlen.
      destruct f as [k |].
      * pose proof (new_role_post_faulty form utcnow d session g k t ds batch g'
                      Etitle Edesc Ht Hd Hgen Hlen) as Hrun.
        cbv zeta in Hrun. apply (f_equal snd) in Hrun.
        destruct (k <? 3)%nat; [cbn [snd] in Hrun; rewrite Hrun; constructor |].
        destruct (k <? 14)%nat; cbn [snd] in Hrun; rewrite Hrun.
        -- apply tr_role; assumption.
        -- apply tr_role_batch; assumption.
      * rewrite (new_role_post_ok form utcnow d session g t ds batch g'
                   Etitle Edesc Ht Hd Hgen).
        cbn [snd durable]. apply tr_role_batch; assumption.
  - rewrite view_role_reads_only. constructor.
Qed.

(** Induction over the files the application produces, transition by
    transition. *)
Lemma reachable_transitions (P : database -> Prop) :
  P empty_database ->
  (forall d d', P d -> transition d d' -> P d') ->
  forall d, reachable d -> P d.
Proof.
  intros H0 Hstep d Hd. induction Hd as [| d r session g f _ IH]; [exact H0 |].
  eapply Hstep; [exact IH | apply dispatch_transition].
Qed.

(* ===================================================================== *)
(** ** What a request adds *)
(* ===================================================================== *)

Lemma insert_candidates_profiles role_id batch d :
  exists rows,
    roles (insert_candidates role_id batch d) = roles d /\
    candidates (insert_candidates role_id batch d) = candidates d ++ rows /\
    Forall (fun c => Candidate.role_id c = role_id) rows /\
    map profile_of_row rows = batch.
Proof.
  destruct (insert_candidates_rows role_id batch d) as (rows & E & _ & Hrid & Hfields).
  exists rows. rewrite E. cbn [roles candidates]. repeat split; [exact Hrid |].
  clear E Hrid. induction Hfields as [| c p rows batch Hcp _ IH]; [reflexivity |].
  cbn [map]. rewrite IH. f_equal.
  destruct p, c; unfold profile_of_row; simpl in *.
  destruct Hcp as (-> & -> & -> & -> & -> & -> & -> & -> & ->). reflexivity.
Qed.

Lemma transition_adds d d' :
  transition d d' ->
  exists new_roles new_rows,
    roles d' = roles d ++ new_roles /\
    candidates d' = candidates d ++ new_rows /\
    added_by_request d new_roles new_rows.
Proof.
  intros [| t ds utcnow Ht Hds | t ds utcnow batch Ht Hds Hlen Hall].
  - exists [], []. rewrite !app_nil_r. repeat split. left. split; reflexivity.
  - destruct (insert_role_rows t ds utcnow d) as (Hfresh & Hroles & Hcands).
    eexists [_], []. rewrite app_nil_r. split; [exact Hroles |].
    split; [exact Hcands |]. right. eexists. split; [reflexivity |].
    cbn [Role.id Role.title Role.description].
    repeat split; try assumption; [left; reflexivity | constructor].
  - destruct (insert_role_rows t ds utcnow d) as (Hfresh & Hroles & Hcands).
    destruct (insert_candidates_profiles (fst (insert_role t ds utcnow d)) batch
                (snd (insert_role t ds utcnow d)))
      as (rows & Hr & Hc & Hrid & Hprof).
    eexists [_], rows. rewrite Hr, Hc, Hroles, Hcands.
    split; [reflexivity |]. split; [reflexivity |].
    right. eexists. split; [reflexivity |].
    cbn [Role.id Role.title Role.description].
    repeat split; try assumption.
    + right. rewrite <- Hlen, <- Hprof. symmetry. apply length_map.
    + subst batch. rewrite Forall_map in Hall.
      rewrite Forall_forall in *. intros c Hc'. split; auto.
Qed.

(** No candidate row points to an id that no role has yet. *)
Lemma no_candidates_for_fresh_id d role_id :
  foreign_keys_valid d -> ~ In role_id (map Role.id (roles d)) ->
  candidates_of role_id d = [].
Proof.
  unfold foreign_keys_valid, candidates_of. intros Hfk Hfresh.
  induction Hfk as [| c cs Hc _ IH]; [reflexivity |]. cbn [filter].
  destruct (Z.eqb_spec (Candidate.role_id c) role_id) as [Heq | _]; [| exact IH].
  rewrite Heq in Hc. contradiction.
Qed.

Lemma candidates_match_roles_foreign_keys d :
  candidates_match_roles d -> foreign_keys_valid d.
Proof.
  unfold candidates_match_roles, foreign_keys_valid. apply Forall_impl.
  intros c (r & Hr & Hid & _). rewrite <- Hid. apply in_map, Hr.
Qed.

Lemma transition_candidates_match_roles d d' :
  candidates_match_roles d -> transition d d' -> candidates_match_roles d'.
Proof.
  intros Hd Htr. apply transition_adds in Htr.
  destruct Htr as (new_roles & new_rows & Hroles & Hcands & Hadded).
  unfold candidates_match_roles in *. rewrite Hroles, Hcands.
  apply Forall_app. split.
  - eapply Forall_impl; [| exact Hd]. intros c (r & Hr & Hrest).
    exists r. split; [apply in_or_app; left; exact Hr | exact Hrest].
  - destruct Hadded as [[_ ->] | (r & -> & _ & _ & _ & _ & Hrows)]; [constructor |].
    eapply Forall_impl; [| exact Hrows]. intros c [Hid Hprof].
    exists r. split; [apply in_or_app; right; left; reflexivity |]. auto.
Qed.

Lemma reachable_candidates_match_roles d :
  reachable d -> candidates_match_roles d.
Proof.
  apply reachable_transitions; [constructor |].
  intros d0 d' H0 Htr. exact (transition_candidates_match_roles d0 d' H0 Htr).
Qed.

Lemma reachable_foreign_keys d : reachable d -> foreign_keys_valid d.
Proof.
  intros H. apply candidates_match_roles_foreign_keys, reachable_candidates_match_roles, H.
Qed.

Lemma after_one_post_reachable : reachable after_one_post.
Proof. apply reach_serve, reach_new. Qed.

(* ===================================================================== *)
(** ** More on the generator *)
(* ===================================================================== *)

(** X1: every candidate the generator produces has its [company],
    [location] and [match_reason] taken from the three fixed pools, and its
    three scores in the range 60..100. *)
Theorem generated_fields_from_pools role_title num_candidates g batch g' c :
  generate_dummy_candidates role_title num_candidates g = (Ok batch, g') ->
  In c batch ->
  In (Profile.company c) companies /\
  In (Profile.location c) locations /\
  In (Profile.match_reason c) match_reasons /\
  60 <= Profile.fit_score c <= 100 /\
  60 <= Profile.culture_score c <= 100 /\
  60 <= Profile.experience_score c <= 100.
Proof.
  intros Hgen Hin.
  destruct (generate_dummy_candidates_ok role_title num_candidates g)
    as (batch0 & g0 & E & _ & Hall).
  rewrite Hgen in E. injection E as <- _.
  rewrite Forall_forall in Hall.
  destruct (Hall c Hin) as (_ & _ & Hco & Hlo & Hre & Hfit & Hcu & Hex).
  repeat split; try assumption; first [apply Hfit | apply Hcu | apply Hex].
Qed.

Lemma generated_fields_from_pools_witness :
  let c := Profile.make "Noah Shah" "Senior Backend Engineer" "InnovateX"
             "San Francisco, CA" "https://linkedin.com/in/noahshah"
             "Relevant experience in similar role" 67 98 92 in
  generate_dummy_candidates "Backend Engineer" (Some 1)
    [3; 14; 15; 92; 65; 35; 89; 79; 32]%nat = (Ok [c], []) /\
  In c [c] /\
  In (Profile.company c) companies /\
  In (Profile.location c) locations /\
  In (Profile.match_reason c) match_reasons /\
  60 <= Profile.fit_score c <= 100 /\
  60 <= Profile.culture_score c <= 100 /\
  60 <= Profile.experience_score c <= 100.
Proof.
  intros c.
  assert (Hgen : generate_dummy_candidates "Backend Engineer" (Some 1)
                   [3; 14; 15; 92; 65; 35; 89; 79; 32]%nat = (Ok [c], []))
    by (vm_compute; reflexivity).
  assert (Hin : In c [c]) by (left; reflexivity).
  split; [exact Hgen |]. split; [exact Hin |].
  exact (generated_fields_from_pools "Backend Engineer" (Some 1)
           [3; 14; 15; 92; 65; 35; 89; 79; 32]%nat [c] [] c Hgen Hin).
Defined.

(** X2: a count of zero or below gives the empty list and draws nothing
    from the random generator. *)
Theorem generate_nothing_for_nonpositive_count role_title count g :
  count <= 0 ->
  generate_dummy_candidates role_title (Some count) g = (Ok [], g).
Proof.
  intros Hcount. unfold generate_dummy_candidates.
  replace (Z.to_nat count) with O by lia. reflexivity.
Qed.

Lemma generate_nothing_for_nonpositive_count_witness :
  -4 <= 0 /\
  generate_dummy_candidates "Backend Engineer" (Some (-4)) [5; 6; 7]%nat =
    (Ok [], [5; 6; 7]%nat).
Proof.
  split; [lia |].
  apply (generate_nothing_for_nonpositive_count "Backend Engineer" (-4) [5; 6; 7]%nat).
  lia.
Defined.

(** The accumulator of the loop is a prefix of what it returns. *)
Lemma generate_loop_accumulator role_title n :
  forall acc g,
    generate_loop role_title n acc g =
    match generate_loop role_title n [] g with
    | (Ok batch, g') => (Ok (acc ++ batch), g')
    | (Raised e, g') => (Raised e, g')
    end.
Proof.
  induction n as [| n IH]; intros acc g; cbn [generate_loop].
  - unfold ret. rewrite app_nil_r. reflexivity.
  - unfold bind. destruct (generate_one role_title g) as [[p | e] g1]; [| reflexivity].
    rewrite (IH (acc ++ [p])), (IH ([] ++ [p])).
    destruct (generate_loop role_title n [] g1) as [[batch | e] g2]; [| reflexivity].
    rewrite <- app_assoc. reflexivity.
Qed.

Lemma generate_loop_add role_title n m :
  forall acc g,
    generate_loop role_title (n + m) acc g =
    bind (generate_loop role_title n acc) (generate_loop role_title m) g.
Proof.
  induction n as [| n IH]; intros acc g; cbn [generate_loop Nat.add].
  - reflexivity.
  - unfold bind.
    destruct (generate_one role_title g) as [[p | e] g1]; [| reflexivity].
    exact (IH (acc ++ [p]) g1).
Qed.

(** X3: the iterations are independent: generating [n + m] candidates is
    generating [n], then [m] from where the random generator stands, and
    putting the two lists one after the other. *)
Theorem generate_in_two_batches role_title n m g :
  0 <= n -> 0 <= m ->
  generate_dummy_candidates role_title (Some (n + m)) g =
  (first_batch <- generate_dummy_candidates role_title (Some n) ;;
   second_batch <- generate_dummy_candidates role_title (Some m) ;;
   ret (first_batch ++ second_batch)) g.
Proof.
  intros Hn Hm. unfold generate_dummy_candidates.
  rewrite Z2Nat.inj_add by assumption. rewrite generate_loop_add.
  unfold bind.
  destruct (generate_loop role_title (Z.to_nat n) [] g) as [[batch1 | e] g1];
    [| reflexivity].
  rewrite generate_loop_accumulator.
  destruct (generate_loop role_title (Z.to_nat m) [] g1) as [[batch2 | e] g2];
    reflexivity.
Qed.

Lemma generate_in_two_batches_witness :
  0 <= 1 /\ 0 <= 2 /\
  generate_dummy_candidates "Backend Engineer" (Some (1 + 2)) [3; 14; 15; 92]%nat =
  (first_batch <- generate_dummy_candidates "Backend Engineer" (Some 1) ;;
   second_batch <- generate_dummy_candidates "Backend Engineer" (Some 2) ;;
   ret (first_batch ++ second_batch)) [3; 14; 15; 92]%nat.
Proof.
  split; [lia |]. split; [lia |].
  apply (generate_in_two_batches "Backend Engineer" 1 2 [3; 14; 15; 92]%nat); lia.
Defined.

Lemma pool_handles_lowercase first_name last_name :
  In first_name first_names -> In last_name last_names ->
  string_forallb is_lower_letter (lower first_name ++ lower last_name) = true.
Proof.
  assert (Hall : forallb (fun f =>
                   forallb (fun l =>
                     string_forallb is_lower_letter (lower f ++ lower l))
                     last_names) first_names = true)
    by (vm_compute; reflexivity).
  rewrite forallb_forall in Hall. intros Hf Hl.
  specialize (Hall first_name Hf). rewrite forallb_forall in Hall.
  exact (Hall last_name Hl).
Qed.

(** X4: the [linkedin] field of every generated candidate is the prefix
    https://linkedin.com/in/ followed by lowercase ASCII letters only: no
    capital, no space, no separator. *)
Theorem generated_linkedin_handle_lowercase role_title num_candidates g batch g' c :
  generate_dummy_candidates role_title num_candidates g = (Ok batch, g') ->
  In c batch ->
  exists handle,
    Profile.linkedin c = ("https://linkedin.com/in/" ++ handle)%string /\
    handle <> "" /\
    string_forallb is_lower_letter handle = true.
Proof.
  intros Hgen Hin.
  destruct (generate_dummy_candidates_ok role_title num_candidates g)
    as (batch0 & g0 & E & _ & Hall).
  rewrite Hgen in E. injection E as <- _.
  rewrite Forall_forall in Hall.
  destruct (Hall c Hin) as ((first_name & last_name & Hf & Hl & _ & Hurl) & _).
  exists (lower first_name ++ lower last_name)%string.
  split; [exact Hurl |]. split; [| apply pool_handles_lowercase; assumption].
  assert (Hne : forallb (fun f => negb (lower f =? "")%string) first_names = true)
    by (vm_compute; reflexivity).
  rewrite forallb_forall in Hne. specialize (Hne first_name Hf).
  destruct (lower first_name); [discriminate Hne | discriminate].
Qed.

Lemma generated_linkedin_handle_lowercase_witness :
  let c := Profile.make "Noah Shah" "Senior Backend Engineer" "InnovateX"
             "San Francisco, CA" "https://linkedin.com/in/noahshah"
             "Relevant experience in similar role" 67 98 92 in
  generate_dummy_candidates "Backend Engineer" (Some 1)
    [3; 14; 15; 92; 65; 35; 89; 79; 32]%nat = (Ok [c], []) /\
  In c [c] /\
  exists handle,
    Profile.linkedin c = ("https://linkedin.com/in/" ++ handle)%string /\
    handle <> "" /\
    string_forallb is_lower_letter handle = true.
Proof.
  intros c.
  assert (Hgen : generate_dummy_candidates "Backend Engineer" (Some 1)
                   [3; 14; 15; 92; 65; 35; 89; 79; 32]%nat = (Ok [c], []))
    by (vm_compute; reflexivity).
  assert (Hin : In c [c]) by (left; reflexivity).
  split; [exact Hgen |]. split; [exact Hin |].
  exact (generated_linkedin_handle_lowercase "Backend Engineer" (Some 1)
           [3; 14; 15; 92; 65; 35; 89; 79; 32]%nat [c] [] c Hgen Hin).
Defined.

(* ===================================================================== *)
(** ** Invariants of the files the application produces *)
(* ===================================================================== *)

Lemma StronglySorted_snoc {A} (R : A -> A -> Prop) (l : list A) (y : A) :
  StronglySorted R l -> Forall (fun x => R x y) l -> StronglySorted R (l ++ [y]).
Proof.
  induction 1 as [| x l Hl IH Hx]; intros Hy; simpl.
  - repeat constructor.
  - inversion Hy as [| x' l' Hxy Hrest]; subst. constructor; [apply IH, Hrest |].
    apply Forall_app. split; [exact Hx | constructor; [exact Hxy | constructor]].
Qed.

Lemma rowids_snoc (ids : list Z) (seq : Z) :
  rowids_increasing ids seq ->
  rowids_increasing (ids ++ [next_rowid ids seq]) (next_rowid ids seq).
Proof.
  intros [Hsorted Hbound]. unfold next_rowid.
  assert (Hfloor : 0 <= fold_right Z.max 0 ids)
    by (clear; induction ids as [| i ids IH]; simpl; lia).
  split.
  - apply StronglySorted_snoc; [exact Hsorted |].
    eapply Forall_impl; [| exact Hbound]. cbv beta. intros i Hi. lia.
  - apply Forall_app. split.
    + eapply Forall_impl; [| exact Hbound]. cbv beta. intros i Hi. lia.
    + constructor; [lia | constructor].
Qed.

(** X5: in every file the application produces, the ids of each table are
    positive, strictly increasing in insertion order (hence distinct) and at
    most the table's AUTOINCREMENT counter. *)
Theorem reachable_rowids_increasing d :
  reachable d ->
  StronglySorted Z.lt (map Role.id (roles d)) /\
  Forall (fun i => 0 < i <= roles_seq d) (map Role.id (roles d)) /\
  StronglySorted Z.lt (map Candidate.id (candidates d)) /\
  Forall (fun i => 0 < i <= candidates_seq d) (map Candidate.id (candidates d)).
Proof.
  intros Hreach.
  enough (H : rowids_increasing (map Role.id (roles d)) (roles_seq d) /\
              rowids_increasing (map Candidate.id (candidates d)) (candidates_seq d))
    by (unfold rowids_increasing in H; tauto).
  revert d Hreach. apply reachable_invariant.
  - intros title description date_created v [Hr Hc]. split; [| exact Hc].
    cbn [insert_role snd roles roles_seq]. rewrite map_app. apply rowids_snoc, Hr.
  - intros role_title role_id p v _ [Hr Hc]. split; [exact Hr |].
    cbn [insert_candidate snd candidates candidates_seq]. rewrite map_app.
    apply rowids_snoc, Hc.
  - split; split; constructor.
Qed.

Lemma reachable_rowids_increasing_witness :
  reachable after_one_post /\
  StronglySorted Z.lt (map Role.id (roles after_one_post)) /\
  Forall (fun i => 0 < i <= roles_seq after_one_post)
         (map Role.id (roles after_one_post)) /\
  StronglySorted Z.lt (map Candidate.id (candidates after_one_post)) /\
  Forall (fun i => 0 < i <= candidates_seq after_one_post)
         (map Candidate.id (candidates after_one_post)).
Proof.
  split; [exact after_one_post_reachable |].
  exact (reachable_rowids_increasing after_one_post after_one_post_reachable).
Defined.

(** X6: in every file the application produces, each candidate row points
    to a role row that exists, and was generated for the title of that role:
    its [current_title] is one of the five variants of the role's title and
    contains it, and its [company], [location] and [match_reason] come from
    the pools. *)
Theorem stored_candidates_match_their_role d c :
  reachable d -> In c (candidates d) ->
  exists r,
    In r (roles d) /\ Role.id r = Candidate.role_id c /\
    In (Candidate.current_title c) (title_variants (Role.title r)) /\
    contains (Role.title r) (Candidate.current_title c) = true /\
    In (Candidate.company c) companies /\
    In (Candidate.location c) locations /\
    In (Candidate.match_reason c) match_reasons.
Proof.
  intros Hreach Hc. apply reachable_candidates_match_roles in Hreach.
  unfold candidates_match_roles in Hreach. rewrite Forall_forall in Hreach.
  destruct (Hreach c Hc) as (r & Hr & Hid & Hprof).
  destruct Hprof as (_ & Htitle & Hco & Hlo & Hre & _).
  cbn [profile_of_row Profile.current_title Profile.company Profile.location
       Profile.match_reason] in *.
  exists r. split; [exact Hr |]. split; [exact Hid |]. split; [exact Htitle |].
  split; [| auto].
  unfold title_variants in Htitle.
  destruct Htitle as [H | [H | [H | [H | [H | []]]]]]; rewrite <- H;
    first [apply contains_prefixed | apply contains_suffixed].
Qed.

Lemma stored_candidates_match_their_role_witness :
  let c := Candidate.make 1 1 "Noah Shah" "Senior Backend Engineer" "InnovateX"
             "San Francisco, CA" "https://linkedin.com/in/noahshah"
             "Relevant experience in similar role" 67 98 92 in
  reachable after_one_post /\ In c (candidates after_one_post) /\
  exists r,
    In r (roles after_one_post) /\ Role.id r = Candidate.role_id c /\
    In (Candidate.current_title c) (title_variants (Role.title r)) /\
    contains (Role.title r) (Candidate.current_title c) = true /\
    In (Candidate.company c) companies /\
    In (Candidate.location c) locations /\
    In (Candidate.match_reason c) match_reasons.
Proof.
  intros c.
  assert (Hc : In c (candidates after_one_post)) by (vm_compute; left; reflexivity).
  split; [exact after_one_post_reachable |]. split; [exact Hc |].
  exact (stored_candidates_match_their_role after_one_post c
           after_one_post_reachable Hc).
Defined.

Lemma filter_nothing {A} (f : A -> bool) (l : list A) :
  Forall (fun x => f x = false) l -> filter f l = [].
Proof.
  induction 1 as [| x l Hx _ IH]; [reflexivity |]. cbn [filter]. rewrite Hx. exact IH.
Qed.

Lemma filter_everything {A} (f : A -> bool) (l : list A) :
  Forall (fun x => f x = true) l -> filter f l = l.
Proof.
  induction 1 as [| x l Hx _ IH]; [reflexivity |]. cbn [filter]. rewrite Hx, IH.
  reflexivity.
Qed.

(** A transition keeps, for every role, a batch that is empty or whole. *)
Lemma transition_batches d d' :
  candidates_match_roles d ->
  (forall r, In r (roles d) ->
     List.length (candidates_of (Role.id r) d) = 0%nat \/
     List.length (candidates_of (Role.id r) d) = 10%nat) ->
  transition d d' ->
  forall r, In r (roles d') ->
    List.length (candidates_of (Role.id r) d') = 0%nat \/
    List.length (candidates_of (Role.id r) d') = 10%nat.
Proof.
  intros Hmatch Hd Htr r Hr. apply transition_adds in Htr.
  destruct Htr as (new_roles & new_rows & Hroles & Hcands & Hadded).
  unfold candidates_of in *. rewrite Hcands, filter_app, length_app.
  rewrite Hroles in Hr.
  destruct Hadded as [[-> ->] | (r0 & -> & Hfresh & _ & _ & Hlen & Hrows)].
  - rewrite app_nil_r in Hr. simpl. rewrite Nat.add_0_r. apply Hd, Hr.
  - apply in_app_or in Hr. destruct Hr as [Hr | [<- | []]].
    + rewrite (filter_nothing _ new_rows).
      * simpl. rewrite Nat.add_0_r. apply Hd, Hr.
      * eapply Forall_impl; [| exact Hrows]. cbv beta. intros c [Hid _].
        apply Z.eqb_neq. rewrite Hid. intros Heq. apply Hfresh.
        rewrite Heq. apply in_map, Hr.
    + pose proof (no_candidates_for_fresh_id d (Role.id r0)
                    (candidates_match_roles_foreign_keys d Hmatch) Hfresh) as Hnone.
      unfold candidates_of in Hnone. rewrite Hnone.
      rewrite (filter_everything _ new_rows).
      * simpl. destruct Hlen as [-> | Hlen]; [left; reflexivity | right; exact Hlen].
      * eapply Forall_impl; [| exact Hrows]. cbv beta. intros c [Hid _].
        apply Z.eqb_eq, Hid.
Qed.

Lemma reachable_batches d :
  reachable d ->
  forall r, In r (roles d) ->
    List.length (candidates_of (Role.id r) d) = 0%nat \/
    List.length (candidates_of (Role.id r) d) = 10%nat.
Proof.
  intros Hreach.
  enough (H : candidates_match_roles d /\
              forall r, In r (roles d) ->
                List.length (candidates_of (Role.id r) d) = 0%nat \/
                List.length (candidates_of (Role.id r) d) = 10%nat)
    by exact (proj2 H).
  revert d Hreach. apply reachable_transitions.
  - split; [constructor | intros r []].
  - intros d d' [Hmatch Hd] Htr. split.
    + exact (transition_candidates_match_roles d d' Hmatch Htr).
    + exact (transition_batches d d' Hmatch Hd Htr).
Qed.

(** X7: in every file the application produces, a role has either no
    candidate row or exactly 10, and so every [candidate_count] the index
    page lists is 0 or 10. *)
Theorem roles_have_no_or_ten_candidates d :
  reachable d ->
  (forall r, In r (roles d) ->
     List.length (filter (fun c => Candidate.role_id c =? Role.id r) (candidates d)) = 0%nat \/
     List.length (filter (fun c => Candidate.role_id c =? Role.id r) (candidates d)) = 10%nat) /\
  Forall (fun row => IndexRow.candidate_count row = 0 \/
                     IndexRow.candidate_count row = 10)
         (select_roles_with_counts d).
Proof.
  intros Hreach. pose proof (reachable_batches d Hreach) as Hbatches.
  split; [exact Hbatches |].
  assert (Hperm : Permutation (select_roles_with_counts d)
                    (map (listing_row d) (roles d))).
  { unfold select_roles_with_counts.
    eapply perm_trans; [apply order_by_permutation |].
    apply grouped_listing. exact (proj1 (reachable_keys d Hreach)). }
  apply Forall_forall. intros row Hrow.
  apply (Permutation_in _ Hperm) in Hrow. apply in_map_iff in Hrow.
  destruct Hrow as (r & <- & Hr). cbn [listing_row IndexRow.candidate_count].
  destruct (Hbatches r Hr) as [H | H]; rewrite H; [left | right]; reflexivity.
Qed.

Lemma roles_have_no_or_ten_candidates_witness :
  reachable after_one_post /\
  Forall (fun row => IndexRow.candidate_count row = 0 \/
                     IndexRow.candidate_count row = 10)
         (select_roles_with_counts after_one_post).
Proof.
  split; [exact after_one_post_reachable |].
  exact (proj2 (roles_have_no_or_ten_candidates after_one_post
                  after_one_post_reachable)).
Defined.

(** X8: in every file the application produces, each role row has a
    non-empty [title] and a non-empty [description]. *)
Theorem stored_roles_have_title_and_description d r :
  reachable d -> In r (roles d) ->
  Role.title r <> "" /\ Role.description r <> "".
Proof.
  intros Hreach. revert r.
  enough (H : Forall (fun r => Role.title r <> "" /\ Role.description r <> "") (roles d))
    by (rewrite Forall_forall in H; exact H).
  revert d Hreach. apply reachable_transitions; [constructor |].
  intros d d' Hd Htr. apply transition_adds in Htr.
  destruct Htr as (new_roles & new_rows & Hroles & _ & Hadded).
  rewrite Hroles. apply Forall_app. split; [exact Hd |].
  destruct Hadded as [[-> _] | (r0 & -> & _ & Ht & Hds & _)]; repeat constructor;
    assumption.
Qed.

Lemma stored_roles_have_title_and_description_witness :
  let r := Role.make 1 "Backend Engineer" "Own our API" "2024-01-01T00:00:00" in
  reachable after_one_post /\ In r (roles after_one_post) /\
  Role.title r <> "" /\ Role.description r <> "".
Proof.
  intros r.
  assert (Hr : In r (roles after_one_post)) by (vm_compute; left; reflexivity).
  split; [exact after_one_post_reachable |]. split; [exact Hr |].
  exact (stored_roles_have_title_and_description after_one_post r
           after_one_post_reachable Hr).
Defined.

(** X9: no request updates or deletes a row: whatever the request, the
    random draws and the storage failures, the rows the file held are still
    there, in place, followed by at most one new role and by no new
    candidate or by 10 of them. *)
Theorem requests_only_append r d session g f :
  let d' := durable (snd (dispatch r (at_entry d session g f))) in
  exists new_roles new_rows,
    roles d' = roles d ++ new_roles /\
    candidates d' = candidates d ++ new_rows /\
    (List.length new_roles <= 1)%nat /\
    (new_rows = [] \/
     (List.length new_roles = 1%nat /\ List.length new_rows = 10%nat)).
Proof.
  cbv zeta.
  destruct (transition_adds d _ (dispatch_transition r d session g f))
    as (new_roles & new_rows & Hroles & Hcands & Hadded).
  exists new_roles, new_rows. split; [exact Hroles |]. split; [exact Hcands |].
  destruct Hadded as [[-> ->] | (r0 & -> & _ & _ & _ & Hlen & _)]; simpl.
  - split; [lia | left; reflexivity].
  - split; [lia |]. destruct Hlen as [-> | Hlen]; [left; reflexivity | right; auto].
Qed.

(** X10: only a POST to /role/new writes: the index page, the role page
    and the GET or HEAD of the form leave the database file as it was, also
    when the storage fails under them. *)
Theorem only_post_writes r d session g f :
  match r with
  | req_new_role POST _ _ => True
  | _ => durable (snd (dispatch r (at_entry d session g f))) = d
  end.
Proof.
  destruct r as [| method form utcnow | role_id]; cbn [dispatch].
  - rewrite index_run. destruct f as [[| [| k]] |]; reflexivity.
  - destruct method; [reflexivity | reflexivity | exact Logic.I].
  - apply view_role_reads_only.
Qed.

(* ===================================================================== *)
(** ** More on the handlers *)
(* ===================================================================== *)

(** X11: a handler that returns has closed its connection. A handler
    raises only when the storage does, or when the role page is asked for an
    id beyond 64 bits (never from the random module, never on a closed
    connection), and then the connection it had opened stays open: it is
    closed on no path that raises. *)
Theorem handlers_close_connection r d session g f :
  let out := dispatch r (at_entry d session g f) in
  match fst out with
  | Ok _ => conn (snd out) = None
  | Raised e =>
      (e = OperationalError /\ f <> None \/
       e = OverflowError /\
       exists role_id, r = req_view_role role_id /\ sqlite_integer role_id = false) /\
      (conn (snd out) = None -> f = Some O)
  end.
Proof.
  cbv zeta. destruct r as [| method form utcnow | role_id]; cbn [dispatch].
  - rewrite index_run.
    destruct f as [[| [| k]] |]; cbn [fst snd conn at_entry]; try reflexivity;
      (split; [left; split; [reflexivity | discriminate] |]);
      first [intros _; reflexivity | intros H; discriminate H].
  - destruct method; try reflexivity.
    destruct (absent_or_empty (form_get "title" form)
              || absent_or_empty (form_get "description" form)) eqn:Hcheck.
    + rewrite (new_role_rejects form utcnow _ Hcheck). reflexivity.
    + apply orb_false_elim in Hcheck. destruct Hcheck as [Ht Hd].
      destruct (form_get "title" form) as [t |] eqn:Etitle; [| discriminate Ht].
      destruct (form_get "description" form) as [ds |] eqn:Edesc; [| discriminate Hd].
      simpl in Ht, Hd. apply String.eqb_neq in Ht, Hd.
      destruct (generate_dummy_candidates_ok t (Some 10) g)
        as (batch & g' & Hgen & Hlen & _).
      change (Z.to_nat 10) with 10%nat in Hlen.
      destruct f as [k |].
      * destruct (new_role_post_world form utcnow d session g k t ds batch g'
                    Etitle Edesc Ht Hd Hgen Hlen)
          as [(Hk & c & g1 & Hrun & Hopen) | (Hk & Hrun)]; rewrite Hrun;
          cbn [fst snd conn]; [| reflexivity].
        split; [left; split; [reflexivity | discriminate] |].
        intros Hc. rewrite (Hopen Hc). reflexivity.
      * rewrite (new_role_post_ok form utcnow d session g t ds batch g'
                   Etitle Edesc Ht Hd Hgen). reflexivity.
  - rewrite view_role_run.
    destruct (sqlite_integer role_id) eqn:Hfits.
    + destruct f as [[| [| [| k]]] |]; cbn [fst snd conn at_entry];
        try (destruct (select_role role_id d); reflexivity);
        (split; [left; split; [reflexivity | discriminate] |]);
        first [intros _; reflexivity | intros H; discriminate H].
    + destruct f as [[| [| k]] |]; cbn [fst snd conn at_entry].
      * split; [left; split; [reflexivity | discriminate] | intros _; reflexivity].
      * split; [left; split; [reflexivity | discriminate] | intros H; discriminate H].
      * split; [right; split; [reflexivity | exists role_id; auto] |].
        intros H; discriminate H.
      * split; [right; split; [reflexivity | exists role_id; auto] |].
        intros H; discriminate H.
Qed.

(** X12: an accepted POST to /role/new makes 14 storage calls. When all of
    them succeed it redirects to the new role and flashes the success
    message; when one of them raises, the request raises and flashes
    nothing. *)
Theorem new_role_succeeds_when_storage_does form utcnow d session g f t ds :
  form_get "title" form = Some t ->
  form_get "description" form = Some ds ->
  t <> "" -> ds <> "" ->
  let out := new_role POST form utcnow (at_entry d session g f) in
  if match f with Some k => (14 <=? k)%nat | None => true end
  then (exists role_id, fst out = Ok (Redirect ("/role/" ++ str_of_Z role_id))) /\
       flashes (snd out) =
         session ++ [("success", "Role created and candidates generated successfully!")]
  else fst out = Raised OperationalError /\ flashes (snd out) = session.
Proof.
  intros Ht Hd Hne1 Hne2. cbv zeta.
  destruct (generate_dummy_candidates_ok t (Some 10) g)
    as (batch & g' & Hgen & Hlen & _).
  change (Z.to_nat 10) with 10%nat in Hlen.
  destruct f as [k |].
  - destruct (new_role_post_world form utcnow d session g k t ds batch g'
                Ht Hd Hne1 Hne2 Hgen Hlen)
      as [(Hk & c & g1 & Hrun & _) | (Hk & Hrun)]; rewrite Hrun; cbn [fst snd flashes].
    + destruct (Nat.leb_spec 14 k); [lia |]. split; reflexivity.
    + destruct (Nat.leb_spec 14 k); [| lia]. split; [| reflexivity].
      eexists. reflexivity.
  - rewrite (new_role_post_ok form utcnow d session g t ds batch g'
               Ht Hd Hne1 Hne2 Hgen).
    split; [eexists; reflexivity | reflexivity].
Qed.

Lemma new_role_succeeds_when_storage_does_witness :
  fst (new_role POST [("title", "Analyst"); ("description", "Count things")]
         "2024-04-01T08:00:00" (at_entry two_roles [] [] (Some 13%nat))) =
    Raised OperationalError /\
  flashes (snd (new_role POST [("title", "Analyst"); ("description", "Count things")]
                  "2024-04-01T08:00:00" (at_entry two_roles [] [] (Some 13%nat)))) = [].
Proof.
  apply (new_role_succeeds_when_storage_does
           [("title", "Analyst"); ("description", "Count things")]
           "2024-04-01T08:00:00" two_roles [] [] (Some 13%nat)
           "Analyst" "Count things");
    [reflexivity | reflexivity | discriminate | discriminate].
Defined.

Lemma find_fresh_last (rs : list Role.t) (r : Role.t) :
  ~ In (Role.id r) (map Role.id rs) ->
  find (fun x => Role.id x =? Role.id r) (rs ++ [r]) = Some r.
Proof.
  induction rs as [| x rs IH]; cbn [app find map]; intros Hfresh.
  - rewrite Z.eqb_refl. reflexivity.
  - destruct (Z.eqb_spec (Role.id x) (Role.id r)) as [Heq | _].
    + elim Hfresh. left. exact Heq.
    + apply IH. intros Hin. apply Hfresh. right. exact Hin.
Qed.

Lemma next_rowid_positive (ids : list Z) (seq : Z) : 0 < next_rowid ids seq.
Proof.
  unfold next_rowid.
  assert (Hfloor : 0 <= fold_right Z.max 0 ids)
    by (induction ids as [| i ids IH]; simpl; lia).
  lia.
Qed.

(** X13: create, then look up. On a file whose candidate rows all point to
    existing roles and whose next role id is one SQLite can hold (below
    2^63), the page the redirect of an accepted POST leads to shows the role
    as it was submitted, with 10 candidates, all of that role. *)
Theorem created_role_can_be_viewed form utcnow d session g t ds :
  foreign_keys_valid d ->
  next_rowid (map Role.id (roles d)) (roles_seq d) < 9223372036854775808 ->
  form_get "title" form = Some t ->
  form_get "description" form = Some ds ->
  t <> "" -> ds <> "" ->
  exists role_id w' listed,
    new_role POST form utcnow (at_entry d session g None) =
      (Ok (Redirect (url_for (ep_view_role role_id))), w') /\
    (forall session2 g2,
        view_role role_id (at_entry (durable w') session2 g2 None) =
        (Ok (Render "role.html"
               (ctx_role (Role.make role_id t ds utcnow) listed)),
         at_entry (durable w') session2 g2 None)) /\
    List.length listed = 10%nat /\
    Forall (fun c => Candidate.role_id c = role_id) listed.
Proof.
  intros Hfk Hbound Ht Hd Hne1 Hne2.
  destruct (new_role_post_stores form utcnow d session g t ds Ht Hd Hne1 Hne2)
    as (role_id & batch & rows & g' & Hrun & Hfresh & Hroles & Hcands & Hlen & Hrid).
  assert (Hfits : sqlite_integer role_id = true).
  { destruct (insert_candidates_profiles role_id batch (snd (insert_role t ds utcnow d)))
      as (rows' & Hsame & _).
    rewrite Hroles in Hsame. cbn [insert_role snd roles] in Hsame.
    apply app_inv_head in Hsame. injection Hsame as ->.
    pose proof (next_rowid_positive (map Role.id (roles d)) (roles_seq d)) as Hpos.
    unfold sqlite_integer. apply andb_true_intro. split;
      [apply Z.leb_le | apply Z.ltb_lt]; lia. }
  set (d2 := insert_candidates role_id batch (snd (insert_role t ds utcnow d))) in *.
  assert (Hlisted : select_candidates role_id d2 =
                    order_by (fun x y => Candidate.fit_score y <=? Candidate.fit_score x)
                      rows).
  { unfold select_candidates. rewrite Hcands, filter_app.
    pose proof (no_candidates_for_fresh_id d role_id Hfk Hfresh) as Hnone.
    unfold candidates_of in Hnone. rewrite Hnone. cbn [app].
    rewrite filter_everything; [reflexivity |].
    eapply Forall_impl; [| exact Hrid]. cbv beta. intros c Hc. apply Z.eqb_eq, Hc. }
  assert (Hperm : Permutation (select_candidates role_id d2) rows)
    by (rewrite Hlisted; apply order_by_permutation).
  exists role_id. eexists. exists (select_candidates role_id d2).
  split; [exact Hrun |]. cbn [durable]. split; [| split].
  - intros session2 g2. rewrite view_role_run, Hfits. cbn [after_calls].
    unfold select_role. rewrite Hroles.
    pose proof (find_fresh_last (roles d) (Role.make role_id t ds utcnow) Hfresh)
      as Hfind.
    cbn [Role.id] in Hfind. rewrite Hfind. reflexivity.
  - rewrite (Permutation_length Hperm). exact Hlen.
  - eapply Permutation_Forall; [apply Permutation_sym, Hperm | exact Hrid].
Qed.

Lemma created_role_can_be_viewed_witness :
  foreign_keys_valid two_roles /\
  next_rowid (map Role.id (roles two_roles)) (roles_seq two_roles)
    < 9223372036854775808 /\
  exists role_id w' listed,
    new_role POST [("title", "Analyst"); ("description", "Count things")]
      "2024-04-01T08:00:00" (at_entry two_roles [] [] None) =
      (Ok (Redirect (url_for (ep_view_role role_id))), w') /\
    (forall session2 g2,
        view_role role_id (at_entry (durable w') session2 g2 None) =
        (Ok (Render "role.html"
               (ctx_role (Role.make role_id "Analyst" "Count things"
                            "2024-04-01T08:00:00") listed)),
         at_entry (durable w') session2 g2 None)) /\
    List.length listed = 10%nat /\
    Forall (fun c => Candidate.role_id c = role_id) listed.
Proof.
  assert (Hfk : foreign_keys_valid two_roles).
  { unfold foreign_keys_valid. cbn.
    constructor; [left; reflexivity |]. constructor; [left; reflexivity | constructor]. }
  assert (Hbound : next_rowid (map Role.id (roles two_roles)) (roles_seq two_roles)
                   < 9223372036854775808) by reflexivity.
  split; [exact Hfk |]. split; [exact Hbound |].
  apply (created_role_can_be_viewed
           [("title", "Analyst"); ("description", "Count things")]
           "2024-04-01T08:00:00" two_roles [] [] "Analyst" "Count things" Hfk Hbound);
    [reflexivity | reflexivity | discriminate | discriminate].
Defined.

(** X14: without storage failure the role page has three outcomes. For an
    id beyond 64 bits the handler raises OverflowError. Otherwise it shows
    a role exactly when a role row has the requested id: then the role shown
    has that id, comes from the table, and every candidate listed belongs to
    it; when no role row has the id the answer is the redirect to /. *)
Theorem view_role_shows_role_or_redirects role_id d session g :
  match fst (view_role role_id (at_entry d session g None)) with
  | Ok (Render template (ctx_role r listed)) =>
      sqlite_integer role_id = true /\
      template = "role.html" /\ In r (roles d) /\ Role.id r = role_id /\
      Forall (fun c => In c (candidates d) /\ Candidate.role_id c = role_id) listed
  | Ok (Redirect location) =>
      sqlite_integer role_id = true /\
      location = "/" /\ forall r, In r (roles d) -> Role.id r <> role_id
  | Raised e => e = OverflowError /\ sqlite_integer role_id = false
  | _ => False
  end.
Proof.
  rewrite view_role_run.
  destruct (sqlite_integer role_id) eqn:Hfits; [| split; reflexivity].
  unfold select_role.
  destruct (find (fun r => Role.id r =? role_id) (roles d)) as [r |] eqn:E;
    cbn [fst].
  - apply find_some in E. destruct E as [Hin Hid]. apply Z.eqb_eq in Hid.
    repeat split; try assumption.
    apply Forall_forall. intros c Hc.
    apply (Permutation_in _ (order_by_permutation _ _)) in Hc.
    apply filter_In in Hc. destruct Hc as [Hc Heq]. apply Z.eqb_eq in Heq. auto.
  - split; [reflexivity |]. split; [reflexivity |]. intros r Hr Hid.
    pose proof (find_none _ _ E r Hr) as Hne. cbv beta in Hne.
    apply Z.eqb_neq in Hne. contradiction.
Qed.

(* ===================================================================== *)
(** ** The counts of the index page add up *)
(* ===================================================================== *)

Lemma total_permutation (l l' : list Z) : Permutation l l' -> total l = total l'.
Proof.
  unfold total. induction 1 as [| x l l' _ IH | x y l | l l' l'' _ IH1 _ IH2];
    simpl; lia.
Qed.

Lemma total_pointwise_add {A} (a b : A -> Z) (l : list A) :
  total (map (fun x => a x + b x) l) = total (map a l) + total (map b l).
Proof. unfold total. induction l as [| x l IH]; simpl; lia. Qed.

(** A key occurs once among distinct ids that contain it. *)
Lemma total_indicator (ids : list Z) (k : Z) :
  NoDup ids ->
  total (map (fun i => if k =? i then 1 else 0) ids) = if in_dec Z.eq_dec k ids then 1 else 0.
Proof.
  unfold total. induction 1 as [| i ids Hfresh _ IH]; [reflexivity |].
  cbn [map fold_right]. rewrite IH.
  destruct (Z.eqb_spec k i) as [-> | Hne].
  - destruct (in_dec Z.eq_dec i ids) as [Hin | _]; [contradiction |].
    destruct (in_dec Z.eq_dec i (i :: ids)) as [_ | Hout]; [reflexivity |].
    elim Hout. left. reflexivity.
  - destruct (in_dec Z.eq_dec k ids) as [Hin | Hout];
      destruct (in_dec Z.eq_dec k (i :: ids)) as [Hin' | Hout']; try reflexivity.
    + elim Hout'. right. exact Hin.
    + destruct Hin' as [Heq | Hin']; [congruence | contradiction].
Qed.

(** Distinct role ids split the candidate rows that point to them. *)
Lemma batches_partition (ids : list Z) (cs : list Candidate.t) :
  NoDup ids ->
  Forall (fun c => In (Candidate.role_id c) ids) cs ->
  total (map (fun i =>
                Z.of_nat (List.length
                            (filter (fun c => Candidate.role_id c =? i) cs)))
             ids) =
  Z.of_nat (List.length cs).
Proof.
  intros Hnodup. induction 1 as [| c cs Hc _ IH].
  - unfold total. induction ids as [| i ids IHids]; [reflexivity |].
    inversion Hnodup; subst. simpl. rewrite <- IHids at 2 by assumption. reflexivity.
  - rewrite (map_ext _ (fun i =>
               (if Candidate.role_id c =? i then 1 else 0) +
               Z.of_nat (List.length
                           (filter (fun c0 => Candidate.role_id c0 =? i) cs)))).
    + rewrite total_pointwise_add, IH, (total_indicator ids _ Hnodup).
      destruct (in_dec Z.eq_dec (Candidate.role_id c) ids) as [_ | Hout];
        [cbn [List.length]; lia | contradiction].
    + intros i. cbn [filter]. destruct (Candidate.role_id c =? i); cbn [List.length]; lia.
Qed.

(** X15: in every file the application produces, the candidate counts of
    the index page add up to the number of candidate rows: each candidate is
    counted, and counted for one role only. *)
Theorem index_counts_add_up d :
  reachable d ->
  total (map IndexRow.candidate_count (select_roles_with_counts d)) =
  Z.of_nat (List.length (candidates d)).
Proof.
  intros Hreach.
  pose proof (proj1 (reachable_keys d Hreach)) as Hkeys.
  assert (Hperm : Permutation (select_roles_with_counts d)
                    (map (listing_row d) (roles d))).
  { unfold select_roles_with_counts.
    eapply perm_trans; [apply order_by_permutation | apply grouped_listing, Hkeys]. }
  rewrite (total_permutation _ _ (Permutation_map IndexRow.candidate_count Hperm)).
  rewrite map_map. cbn [listing_row IndexRow.candidate_count]. unfold candidates_of.
  rewrite <- (map_map Role.id
                (fun i => Z.of_nat (List.length
                            (filter (fun c => Candidate.role_id c =? i)
                                    (candidates d))))).
  apply batches_partition; [exact Hkeys |].
  exact (reachable_foreign_keys d Hreach).
Qed.

Lemma index_counts_add_up_witness :
  reachable after_one_post /\
  total (map IndexRow.candidate_count (select_roles_with_counts after_one_post)) =
  Z.of_nat (List.length (candidates after_one_post)).
Proof.
  split; [exact after_one_post_reachable |].
  exact (index_counts_add_up after_one_post after_one_post_reachable).
Defined.

(* ===================================================================== *)
(** ** Redirects and the URL map *)
(* ===================================================================== *)

Lemma int_converter_str_of_Z (i : Z) : 0 <= i -> int_converter (str_of_Z i) = Some i.
Proof.
  intros Hi. unfold int_converter, str_of_Z.
  destruct i as [| p | p]; [reflexivity | | lia].
  cbn [Z.to_int NilZero.string_of_int].
  rewrite NilZero.usu by apply DecimalPos.Unsigned.to_uint_nonnil.
  cbn [option_map]. f_equal.
  exact (DecimalZ.of_to (Z.pos p)).
Qed.

(** X16: the URLs the handlers redirect to are paths of the URL map: the
    router sends [url_for] of an endpoint back to that endpoint, for the role
    page with the same id, whenever the id is not negative (the [int]
    converter reads digits only). *)
Theorem redirects_lead_to_their_endpoint (e : endpoint) :
  match e with ep_view_role role_id => 0 <= role_id | _ => True end ->
  match_route (url_for e) = Some e.
Proof.
  destruct e as [| | role_id]; [reflexivity | reflexivity |]. intros Hid.
  pose proof (int_converter_str_of_Z role_id Hid) as Hconv.
  unfold match_route, url_for.
  cbn [String.append String.eqb Ascii.eqb Bool.eqb andb strip_prefix].
  destruct (String.eqb_spec (str_of_Z role_id) "new") as [Heq | _].
  - rewrite Heq in Hconv. discriminate Hconv.
  - rewrite Hconv. reflexivity.
Qed.

Lemma redirects_lead_to_their_endpoint_witness :
  0 <= 42 /\ match_route "/role/42" = Some (ep_view_role 42).
Proof.
  split; [lia |].
  apply (redirects_lead_to_their_endpoint (ep_view_role 42)). lia.
Defined.

(* ===================================================================== *)
(** ** What the candidates depend on *)
(* ===================================================================== *)

Lemma insert_candidates_independent role_id batch :
  forall v v',
    candidates v = candidates v' -> candidates_seq v = candidates_seq v' ->
    candidates (insert_candidates role_id batch v) =
    candidates (insert_candidates role_id batch v').
Proof.
  unfold insert_candidates.
  induction batch as [| p batch IH]; intros v v' Hrows Hseq; cbn [fold_left].
  - exact Hrows.
  - apply IH; cbn [insert_candidate snd candidates candidates_seq];
      rewrite Hrows, Hseq; reflexivity.
Qed.

(** X17: the candidates do not depend on the job description: two accepted
    submissions with the same title, on the same file and with the same
    random draws, store the same candidate rows, whatever their
    descriptions and timestamps. *)
Theorem candidates_ignore_description
    form1 form2 utcnow1 utcnow2 d session1 session2 g t ds1 ds2 :
  form_get "title" form1 = Some t -> form_get "title" form2 = Some t ->
  form_get "description" form1 = Some ds1 ->
  form_get "description" form2 = Some ds2 ->
  t <> "" -> ds1 <> "" -> ds2 <> "" ->
  candidates (durable (snd (new_role POST form1 utcnow1 (at_entry d session1 g None)))) =
  candidates (durable (snd (new_role POST form2 utcnow2 (at_entry d session2 g None)))).
Proof.
  intros Ht1 Ht2 Hd1 Hd2 Hne Hne1 Hne2.
  destruct (generate_dummy_candidates_ok t (Some 10) g)
    as (batch & g' & Hgen & _).
  rewrite (new_role_post_ok form1 utcnow1 d session1 g t ds1 batch g'
             Ht1 Hd1 Hne Hne1 Hgen).
  rewrite (new_role_post_ok form2 utcnow2 d session2 g t ds2 batch g'
             Ht2 Hd2 Hne Hne2 Hgen).
  cbn [snd durable]. apply insert_candidates_independent; reflexivity.
Qed.

Lemma candidates_ignore_description_witness :
  candidates (durable (snd (new_role POST
                              [("title", "Analyst"); ("description", "Count things")]
                              "2024-04-01T08:00:00"
                              (at_entry two_roles [] [2; 7; 1; 8]%nat None)))) =
  candidates (durable (snd (new_role POST
                              [("description", "Something else"); ("title", "Analyst")]
                              "2025-01-01T00:00:00"
                              (at_entry two_roles [] [2; 7; 1; 8]%nat None)))).
Proof.
  apply (candidates_ignore_description
           [("title", "Analyst"); ("description", "Count things")]
           [("description", "Something else"); ("title", "Analyst")]
           "2024-04-01T08:00:00" "2025-01-01T00:00:00" two_roles [] []
           [2; 7; 1; 8]%nat "Analyst" "Count things" "Something else");
    [reflexivity | reflexivity | reflexivity | reflexivity
     | discriminate | discriminate | discriminate].
Defined.

Lemma handlers_close_connection_witness :
  (OverflowError = OperationalError /\ @None nat <> None \/
   OverflowError = OverflowError /\
   exists role_id,
     req_view_role 9223372036854775808 = req_view_role role_id /\
     sqlite_integer role_id = false) /\
  (conn (snd (dispatch (req_view_role 9223372036854775808)
                (at_entry two_roles [] [] None))) = None ->
   None = Some O).
Proof.
  exact (handlers_close_connection (req_view_role 9223372036854775808)
           two_roles [] [] None).
Defined.

Lemma view_role_shows_role_or_redirects_witness :
  sqlite_integer 7 = true /\
  "/" = "/" /\ forall r, In r (roles two_roles) -> Role.id r <> 7.
Proof.
  exact (view_role_shows_role_or_redirects 7 two_roles [] []).
Defined.
